(** * Verification of [functions/detect.js]

    A shallow embedding of the request handler [onRequest] of
    [functions/detect.js] (a Cloudflare Pages Function that infers whether a
    domain is fronted by Cloudflare) and of the helpers it declares, followed
    by the theorems that settle the specification's claims about it.

    Conventions of the embedding.
    - A JavaScript string is a [string]; its characters are the code units
      U+0000..U+00FF, and [toLowerCase], [trim] are the ECMAScript functions
      on that range.
    - A JavaScript number that the handler computes with is always an
      integer, an infinity or NaN: [number].  Results of arithmetic are
      rounded to the nearest double as IEEE 754 does ([toDouble]).
    - Every outbound [fetch] is answered by an oracle, the [World], which
      sees the calls made so far; the handler threads the list of calls it
      has made and may throw: the monad [M]. *)

From Stdlib Require Import ZArith Ascii String List Bool Lia DecimalString.
From stdpp Require Import base gmap strings list.

Local Open Scope Z_scope.

(** ** Characters and strings *)

Module Js.

Definition code (c : ascii) : Z := Z.of_N (N_of_ascii c).

Definition chr (z : Z) : ascii := ascii_of_N (Z.to_N z).

Definition char_eqb (a b : ascii) : bool := Ascii.eqb a b.

(** The double quote, U+0022. *)
Definition dquote : ascii := "034"%char.

Definition str1 (c : ascii) : string := String c EmptyString.

(** [String.prototype.toLowerCase] on U+0000..U+00FF: the letters A-Z and
    the Latin-1 capitals U+00C0..U+00DE (U+00D7, the multiplication sign,
    apart) move 32 places up. *)
Definition lowerChar (c : ascii) : ascii :=
  let n := code c in
  if ((65 <=? n) && (n <=? 90))
     || ((192 <=? n) && (n <=? 222) && negb (n =? 215))
  then chr (n + 32) else c.

Fixpoint toLowerCase (s : string) : string :=
  match s with
  | EmptyString => EmptyString
  | String c r => String (lowerChar c) (toLowerCase r)
  end.

(** White space and line terminators below U+0100: TAB, LF, VT, FF, CR,
    SP and NBSP. *)
Definition isWhite (c : ascii) : bool :=
  let n := code c in
  ((9 <=? n) && (n <=? 13)) || (n =? 32) || (n =? 160).

Fixpoint trimStart (s : string) : string :=
  match s with
  | EmptyString => EmptyString
  | String c r => if isWhite c then trimStart r else s
  end.

(** [trimEnd s] drops the trailing white space: a character is kept when it
    is not white or something is kept after it. *)
Fixpoint trimEnd (s : string) : string :=
  match s with
  | EmptyString => EmptyString
  | String c r =>
      match trimEnd r with
      | EmptyString => if isWhite c then EmptyString else str1 c
      | r' => String c r'
      end
  end.

Definition trim (s : string) : string := trimEnd (trimStart s).

Fixpoint startsWith (s t : string) {struct t} : bool :=
  match t, s with
  | EmptyString, _ => true
  | String _ _, EmptyString => false
  | String b t', String a s' => char_eqb a b && startsWith s' t'
  end.

(** [s.includes(t)] *)
Fixpoint includes (s t : string) : bool :=
  startsWith s t ||
  match s with
  | EmptyString => false
  | String _ r => includes r t
  end.

(** [s.endsWith(t)] *)
Fixpoint endsWith (s t : string) : bool :=
  String.eqb s t ||
  match s with
  | EmptyString => false
  | String _ r => endsWith r t
  end.

(** [s.indexOf(c)] for a one-character search string: the position of the
    first occurrence, or -1. *)
Fixpoint indexOfFrom (i : Z) (s : string) (c : ascii) : Z :=
  match s with
  | EmptyString => -1
  | String a r => if char_eqb a c then i else indexOfFrom (i + 1) r c
  end.

Definition indexOf (s : string) (c : ascii) : Z := indexOfFrom 0 s c.

(** [s.split(c)] for a one-character separator; the result always has at
    least one element. *)
Fixpoint split (sep : ascii) (s : string) : list string :=
  match s with
  | EmptyString => [EmptyString]
  | String a r =>
      if char_eqb a sep then EmptyString :: split sep r
      else match split sep r with
           | [] => [str1 a]
           | p :: ps => String a p :: ps
           end
  end.

(** [s.split(/\r?\n/)]: a line ends at LF or at CR immediately followed by
    LF; a CR elsewhere is an ordinary character. *)
Fixpoint splitLines (s : string) : list string :=
  match s with
  | EmptyString => [EmptyString]
  | String a r =>
      let keep :=
        match splitLines r with
        | [] => [str1 a]
        | p :: ps => String a p :: ps
        end in
      if code a =? 10 then EmptyString :: splitLines r
      else if code a =? 13 then
        match r with
        | String b r' =>
            if code b =? 10 then EmptyString :: splitLines r' else keep
        | EmptyString => keep
        end
      else keep
  end.

(** [s.replace(/\.$/, '')]: without the [m] flag [$] is the end of the
    input, so exactly one final dot is removed. *)
Fixpoint stripTrailingDot (s : string) : string :=
  match s with
  | EmptyString => EmptyString
  | String c EmptyString => if code c =? 46 then EmptyString else s
  | String c r => String c (stripTrailingDot r)
  end.

(** Every character of [s] satisfies [P]. *)
Fixpoint allChars (P : ascii -> bool) (s : string) : bool :=
  match s with
  | EmptyString => true
  | String c r => P c && allChars P r
  end.

End Js.

(** ** Numbers

    The values the handler's arithmetic can produce: NaN, the infinities
    ([Infinity true] is the negative one) and the integers that a double
    holds. *)

Inductive number : Type :=
  | NaN
  | Infinity (negative : bool)
  | Num (z : Z).

Module Number.
Import Js.

(** The double nearest to the integer [z], ties to even; beyond the largest
    finite double the result is an infinity. *)
Definition toDouble (z : Z) : number :=
  let a := Z.abs z in
  if a <? 2 ^ 53 then Num z
  else
    let e := Z.log2 a - 52 in
    let q := Z.shiftr a e in
    let r := a - Z.shiftl q e in
    let half := Z.shiftl 1 (e - 1) in
    let q' := if (half <? r) || ((r =? half) && Z.odd q) then q + 1 else q in
    let m := Z.shiftl q' e in
    if 2 ^ 1024 <=? m then Infinity (z <? 0) else Num (Z.sgn z * m).

(** ToInt32 and ToUint32 of ECMAScript. *)
Definition ToUint32 (x : number) : Z :=
  match x with
  | Num z => z mod 2 ^ 32
  | _ => 0
  end.

Definition wrap32 (z : Z) : Z := (z + 2 ^ 31) mod 2 ^ 32 - 2 ^ 31.

Definition ToInt32 (x : number) : Z :=
  match x with
  | Num z => wrap32 z
  | _ => 0
  end.

(** [a + b] and [a - b] on numbers. *)
Definition add (a b : number) : number :=
  match a, b with
  | NaN, _ | _, NaN => NaN
  | Infinity s, Infinity t => if Bool.eqb s t then Infinity s else NaN
  | Infinity s, Num _ | Num _, Infinity s => Infinity s
  | Num x, Num y => toDouble (x + y)
  end.

Definition neg (a : number) : number :=
  match a with
  | NaN => NaN
  | Infinity s => Infinity (negb s)
  | Num z => Num (- z)
  end.

Definition sub (a b : number) : number := add a (neg b).

(** [a << b], [a >>> b], [a & b] and [~a]: the operands go through
    ToInt32 or ToUint32 and the shift count is taken modulo 32. *)
Definition shl (a b : number) : number :=
  Num (wrap32 (Z.shiftl (ToInt32 a) (Z.land (ToUint32 b) 31))).

Definition ushr (a b : number) : number :=
  Num (Z.shiftr (ToUint32 a) (Z.land (ToUint32 b) 31)).

Definition band (a b : number) : number :=
  Num (wrap32 (Z.land (ToInt32 a) (ToInt32 b))).

Definition bnot (a : number) : number := Num (Z.lnot (ToInt32 a)).

(** [a === b] on numbers: NaN equals nothing. *)
Definition strictEq (a b : number) : bool :=
  match a, b with
  | Num x, Num y => x =? y
  | Infinity s, Infinity t => Bool.eqb s t
  | _, _ => false
  end.

Definition isDigit (c : ascii) : bool := (48 <=? code c) && (code c <=? 57).

(** The value of the longest prefix of decimal digits of [s], read after the
    digits of value [acc]; [seen] tells whether a digit was read. *)
Fixpoint digitsValue (s : string) (acc : Z) (seen : bool) : option Z :=
  match s with
  | String c r =>
      if isDigit c then digitsValue r (10 * acc + (code c - 48)) true
      else if seen then Some acc else None
  | EmptyString => if seen then Some acc else None
  end.

(** [parseInt(s, 10)]: leading white space is skipped, one sign is read,
    then the longest run of decimal digits; no digit gives NaN. *)
Definition parseInt (s : string) : number :=
  let t := trimStart s in
  let '(negative, body) :=
    match t with
    | String c r =>
        if code c =? 45 then (true, r)
        else if code c =? 43 then (false, r)
        else (false, t)
    | EmptyString => (false, t)
    end in
  match digitsValue body 0 false with
  | None => NaN
  | Some v => if negative then neg (toDouble v) else toDouble v
  end.

End Number.

(** ** CIDR containment (lines 47-57) *)

Module Cidr.
Import Js Number.

(** [ip.split('.').reduce((acc,oct)=> (acc<<8) + parseInt(oct,10), 0) >>> 0] *)
Definition ipToInt (ip : string) : number :=
  ushr
    (fold_left (fun acc oct => add (shl acc (Num 8)) (parseInt oct))
               (split "." ip) (Num 0))
    (Num 0).

(** ToString of a value that is a string or [undefined] ([None]). *)
Definition ToString (v : option string) : string :=
  match v with
  | Some m => m
  | None => "undefined"
  end.

(** A valid dotted quad: four parts, each a non-empty run of decimal digits
    whose value is at most 255. *)
Definition isOctet (s : string) : bool :=
  allChars isDigit s &&
  match digitsValue s 0 false with
  | Some v => v <=? 255
  | None => false
  end.

(** The address that a dotted quad denotes: its parts in base 256, the
    most significant first. *)
Definition octetValue (s : string) : Z :=
  match digitsValue s 0 false with
  | Some v => v
  | None => 0
  end.

Definition addressValue (ip : string) : Z :=
  fold_left (fun acc oct => acc * 256 + octetValue oct) (split "." ip) 0.

Definition valid_ipv4 (ip : string) : bool :=
  match split "." ip with
  | [a; b; c; d] => isOctet a && isOctet b && isOctet c && isOctet d
  | _ => false
  end.

Definition cidrContains (cidr ip : string) : bool :=
  if negb (indexOf cidr ":" =? -1) then false
  else
    let parts := split "/" cidr in
    let net := nth 0 parts EmptyString in
    let mask := nth_error parts 1 in
    let netInt := ipToInt net in
    let ipInt := ipToInt ip in
    let maskInt :=
      match mask with
      | Some EmptyString => Num 0
      | _ => ushr (shl (bnot (Num 0))
                       (sub (Num 32) (parseInt (ToString mask))))
                  (Num 0)
      end in
    strictEq (band netInt maskInt) (band ipInt maskInt).

(** A part that is a run of decimal digits whose value a double holds with
    room to spare: no validation bounds it by 255. *)
Definition isDecimal (s : string) : bool :=
  allChars isDigit s &&
  match digitsValue s 0 false with
  | Some v => v <? 2 ^ 52
  | None => false
  end.

End Cidr.

(** ** JSON values and [JSON.stringify] *)

#[warnings="-register-all"]
Inductive json : Type :=
  | JNull
  | JBool (b : bool)
  | JNum (z : Z)
  | JStr (s : string)
  | JArr (items : list json)
  | JObj (fields : list (string * json)).

Module Json.
Import Js.

Definition hexDigit (n : Z) : ascii :=
  if n <? 10 then chr (48 + n) else chr (87 + n).

(** QuoteJSONString: the quote, the backslash and the control characters
    are escaped, everything else is copied. *)
Definition escapeChar (c : ascii) : string :=
  let n := code c in
  if n =? 8 then "\b"
  else if n =? 9 then "\t"
  else if n =? 10 then "\n"
  else if n =? 12 then "\f"
  else if n =? 13 then "\r"
  else if n =? 34 then String "\" (str1 dquote)
  else if n =? 92 then "\\"
  else if n <? 32 then
    "\u00" +:+ String (hexDigit (n / 16)) (str1 (hexDigit (n mod 16)))
  else str1 c.

Fixpoint escape (s : string) : string :=
  match s with
  | EmptyString => EmptyString
  | String c r => escapeChar c +:+ escape r
  end.

Definition quote (s : string) : string :=
  String dquote (escape s +:+ str1 dquote).

Fixpoint join (sep : string) (l : list string) : string :=
  match l with
  | [] => EmptyString
  | [x] => x
  | x :: r => x +:+ sep +:+ join sep r
  end.

Definition newline : string := str1 (chr 10).

Definition wrap (opening closing gap indent : string) (l : list string)
  : string :=
  match l with
  | [] => opening +:+ closing
  | _ =>
      if String.eqb gap EmptyString
      then opening +:+ join "," l +:+ closing
      else
        let inner := indent +:+ gap in
        opening +:+ newline +:+ inner
          +:+ join ("," +:+ newline +:+ inner) l
          +:+ newline +:+ indent +:+ closing
  end.

(** SerializeJSONProperty with the gap [gap] at the indentation [indent].
    A number is an integer here and prints in decimal. *)
Fixpoint serialize (gap indent : string) (v : json) : string :=
  match v with
  | JNull => "null"
  | JBool b => if b then "true" else "false"
  | JNum z => NilZero.string_of_int (Z.to_int z)
  | JStr s => quote s
  | JArr items =>
      wrap "[" "]" gap indent (map (serialize gap (indent +:+ gap)) items)
  | JObj fields =>
      let colon := if String.eqb gap EmptyString then ":" else ": " in
      wrap "{" "}" gap indent
        (map (fun kv =>
                quote (fst kv) +:+ colon
                  +:+ serialize gap (indent +:+ gap) (snd kv))
             fields)
  end.

(** [JSON.stringify(v)] and [JSON.stringify(v, null, 2)]. *)
Definition stringify (v : json) : string := serialize "" "" v.
Definition stringify2 (v : json) : string := serialize "  " "" v.

(** ToBoolean of a value that is a JSON value or [undefined] ([None]). *)
Definition truthy (v : option json) : bool :=
  match v with
  | None | Some JNull => false
  | Some (JBool b) => b
  | Some (JNum z) => negb (z =? 0)
  | Some (JStr s) => negb (String.eqb s EmptyString)
  | Some (JArr _) | Some (JObj _) => true
  end.

(** Reading the property [k] of a parsed object. *)
Fixpoint getField (k : string) (fields : list (string * json)) : option json :=
  match fields with
  | [] => None
  | (k', v) :: r => if String.eqb k' k then Some v else getField k r
  end.

End Json.

(** ** The incoming request, the outbound calls and the world *)

(** What the handler reads of [context.request]: the query parameters of
    its URL, decoded, in order, and what [request.json()] resolves to
    ([None] when it rejects: no body, or a body that is not JSON). *)
Record Request : Type := {
  searchParams : list (string * string);
  body : option json
}.

Inductive Method : Type := GET | HEAD.

(** One call of [fetch]: the URL and the options the handler passes. *)
Record Call : Type := {
  url : string;
  method : Method;
  accept : option string;
  redirectManual : bool;
  cacheTtl : option Z
}.

(** What a thrown or rejected value is: a TypeError raised by the language
    itself, or a rejection of [fetch] or of a body read, whose text
    ([String(e)]) the world chooses. *)
Inductive error : Type :=
  | TypeError (msg : string)
  | Rejected (text : string).

Inductive result (A : Type) : Type :=
  | Ok (a : A)
  | Throw (e : error).
Arguments Ok {A} a.
Arguments Throw {A} e.

(** A record of a DNS-over-HTTPS answer and the JSON document of the
    resolver, as its API documents them; [Answer] may be missing. *)
Record DnsRecord : Type := { type : Z; data : string }.
Record DohJson : Type := { Answer : option (list DnsRecord) }.

(** The response of a [fetch]: status, headers (names in lower case, as
    [Headers.get] looks them up), and what reading the body as text and
    as JSON gives. *)
Record FetchResponse : Type := {
  status : Z;
  headers : gmap string string;
  text : result string;
  json_body : result DohJson
}.

Definition ok (r : FetchResponse) : bool :=
  (200 <=? status r) && (status r <=? 299).

Definition Trace : Type := list Call.

(** The world answers a call knowing the calls made before it. *)
Definition World : Type := Trace -> Call -> result FetchResponse.

(** ** The monad of the handler: calls made so far, and exceptions *)

Definition M (A : Type) : Type := World -> Trace -> result A * Trace.

Definition ret {A} (a : A) : M A := fun _ tr => (Ok a, tr).

Definition throw {A} (e : error) : M A := fun _ tr => (Throw e, tr).

Definition bind {A B} (m : M A) (k : A -> M B) : M B :=
  fun w tr =>
    match m w tr with
    | (Ok a, tr') => k a w tr'
    | (Throw e, tr') => (Throw e, tr')
    end.

(** [try { m } catch (e) { h e }] *)
Definition try_catch {A} (m : M A) (h : error -> M A) : M A :=
  fun w tr =>
    match m w tr with
    | (Ok a, tr') => (Ok a, tr')
    | (Throw e, tr') => h e w tr'
    end.

Definition lift {A} (r : result A) : M A := fun _ tr => (r, tr).

Definition fetch (c : Call) : M FetchResponse :=
  fun w tr => (w tr c, tr ++ [c]).

Declare Scope handler_scope.
Delimit Scope handler_scope with handler.
Notation "x <- m ;; k" := (bind m (fun x => k))
  (at level 100, m at next level, right associativity) : handler_scope.

(** [String(e)] *)
Definition errorString (e : error) : string :=
  match e with
  | TypeError msg => "TypeError: " +:+ msg
  | Rejected t => t
  end.

(** ** [encodeURIComponent] *)

Module Uri.
Import Js.

Definition unreserved (c : ascii) : bool :=
  let n := code c in
  ((65 <=? n) && (n <=? 90)) || ((97 <=? n) && (n <=? 122))
  || ((48 <=? n) && (n <=? 57))
  || (n =? 45) || (n =? 95) || (n =? 46) || (n =? 33) || (n =? 126)
  || (n =? 42) || (n =? 39) || (n =? 40) || (n =? 41).

Definition HEX (n : Z) : ascii :=
  if n <? 10 then chr (48 + n) else chr (55 + n).

Definition percent (byte : Z) : string :=
  String "%" (String (HEX (byte / 16)) (str1 (HEX (byte mod 16)))).

(** The UTF-8 bytes of a code unit below U+0100, percent-encoded. *)
Definition encodeChar (c : ascii) : string :=
  let n := code c in
  if unreserved c then str1 c
  else if n <? 128 then percent n
  else percent (192 + n / 64) +:+ percent (128 + n mod 64).

(** The characters of an encoded component: the unreserved ones and the
    percent sign. *)
Definition escaped (c : ascii) : bool := unreserved c || (code c =? 37).

Fixpoint encodeURIComponent (s : string) : string :=
  match s with
  | EmptyString => EmptyString
  | String c r => encodeChar c +:+ encodeURIComponent r
  end.

End Uri.

(** ** The handler (lines 3-83) *)

(** The result of one probe: [{ ok:true, status, headers }] or
    [{ ok:false, error }]. *)
Inductive ProbeResult : Type :=
  | ProbeOk (status : Z) (headers : gmap string string)
  | ProbeFail (error : string).

(** The object the handler serialises (lines 70-78). *)
Record Inference : Type := {
  domain : string;
  resolved_ips : list string;
  nameservers : list string;
  headerHints : list string;
  ips_in_cloudflare_ranges : list string;
  ns_using_cloudflare : bool;
  likely_using_cloudflare : bool
}.

(** [new Response(body, { status, headers })] *)
Record Response : Type := {
  responseStatus : Z;
  responseHeaders : list (string * string);
  responseBody : string
}.

Module Detect.
Import Js Number Cidr Json Uri.
Local Open Scope handler_scope.

(** [url.searchParams.get(name)]: the first value of that name, or null. *)
Fixpoint searchParams_get (name : string) (ps : list (string * string))
  : option string :=
  match ps with
  | [] => None
  | (k, v) :: r => if String.eqb k name then Some v else searchParams_get name r
  end.

(** [context.request.json().then(r=>r.domain).catch(()=>null)]: reading a
    property of [null] throws inside [then], and [catch] turns every
    rejection into [null]; a value that is no object has no such property
    ([undefined], [None]). *)
Definition bodyDomain (req : Request) : option json :=
  match body req with
  | None => Some JNull
  | Some JNull => Some JNull
  | Some (JObj fields) => getField "domain" fields
  | Some _ => None
  end.

(** Line 5, the operand of [.trim()]: the first truthy of the query
    parameter and the body's field, or else the empty string. *)
Definition rawDomain (req : Request) : option json :=
  let q := searchParams_get "domain" (searchParams req) in
  if truthy (JStr <$> q) then JStr <$> q
  else if truthy (bodyDomain req) then bodyDomain req
  else Some (JStr EmptyString).

(** Line 5.  [trim] exists on strings only. *)
Definition extractDomain (req : Request) : result string :=
  match rawDomain req with
  | Some (JStr s) => Ok (toLowerCase (trim s))
  | _ => Throw (TypeError "(intermediate value).trim is not a function")
  end.

Definition missingDomain : Response :=
  {| responseStatus := 400;
     responseHeaders := [];
     responseBody := stringify (JObj [("error", JStr "Missing domain")]) |}.

Definition dohCall (name type : string) : Call :=
  {| url := "https://cloudflare-dns.com/dns-query?name="
              +:+ encodeURIComponent name +:+ "&type="
              +:+ encodeURIComponent type +:+ "&ct=application/dns-json";
     method := GET;
     accept := Some "application/dns-json";
     redirectManual := false;
     cacheTtl := None |}.

(** Lines 9-14. *)
Definition doh (name type : string) : M (option DohJson) :=
  r <- fetch (dohCall name type) ;;
  if negb (ok r) then ret None
  else j <- lift (json_body r) ;; ret (Some j).

(** Line 18. *)
Definition ipv4Of (aJson : option DohJson) : list string :=
  match aJson with
  | Some {| Answer := Some answer |} =>
      map data (List.filter (fun a => type a =? 1) answer)
  | _ => []
  end.

(** Line 22. *)
Definition nameserversOf (nsJson : option DohJson) : list string :=
  match nsJson with
  | Some {| Answer := Some answer |} =>
      map (fun a => toLowerCase (stripTrailingDot (data a))) answer
  | _ => []
  end.

Definition probeCall (proto domain : string) : Call :=
  {| url := proto +:+ "://" +:+ domain;
     method := HEAD;
     accept := None;
     redirectManual := true;
     cacheTtl := Some 0 |}.

Definition interesting : list string :=
  ["server"; "cf-ray"; "cf-cache-status"; "via"; "x-powered-by"].

(** Lines 30-34: the headers of the list that the response has with a
    non-empty value. *)
Definition collect (hs : gmap string string) : gmap string string :=
  fold_left
    (fun h k =>
       match hs !! k with
       | Some v => if String.eqb v EmptyString then h else <[k := v]> h
       | None => h
       end)
    interesting ∅.

(** Lines 26-37. *)
Definition tryFetch (domain proto : string) : M ProbeResult :=
  try_catch
    (r <- fetch (probeCall proto domain) ;;
     ret (ProbeOk (status r) (collect (headers r))))
    (fun e => ret (ProbeFail (errorString e))).

Definition probe_ok (p : ProbeResult) : bool :=
  match p with
  | ProbeOk _ _ => true
  | ProbeFail _ => false
  end.

(** [httpInfo.headers]: [undefined] on a failed probe. *)
Definition probe_headers (p : ProbeResult) : option (gmap string string) :=
  match p with
  | ProbeOk _ h => Some h
  | ProbeFail _ => None
  end.

(** Lines 38-39. *)
Definition probe (domain : string) : M ProbeResult :=
  httpInfo <- tryFetch domain "https" ;;
  if negb (probe_ok httpInfo) then tryFetch domain "http" else ret httpInfo.

Definition plainCall (u : string) : Call :=
  {| url := u; method := GET; accept := None;
     redirectManual := false; cacheTtl := None |}.

(** [await (await fetch(u)).text()] *)
Definition fetchText (u : string) : M string :=
  r <- fetch (plainCall u) ;; lift (text r).

(** Line 44. *)
Definition cfRangesOf (cfV4txt cfV6txt : string) : list string :=
  List.filter (fun l => negb (String.eqb l EmptyString))
              (splitLines cfV4txt ++ splitLines cfV6txt).

(** Line 58. *)
Definition ipsBehindCFOf (ipv4 cfRanges : list string) : list string :=
  List.filter (fun ip => existsb (fun r => cidrContains r ip) cfRanges) ipv4.

(** Line 61. *)
Definition nsUsesCloudflareOf (nameservers : list string) : bool :=
  existsb (fun ns => endsWith ns "ns.cloudflare.com" || includes ns "cloudflare")
          nameservers.

(** ToBoolean of a property of the captured headers. *)
Definition present (v : option string) : bool :=
  match v with
  | Some s => negb (String.eqb s EmptyString)
  | None => false
  end.

Definition push (l : list string) (x : string) : list string := l ++ [x].

(** Lines 64-67 on the captured headers [h]. *)
Definition indications (h : gmap string string) : list string :=
  let l0 := [] in
  let l1 :=
    if present (h !! "server")
       && includes (toLowerCase (default EmptyString (h !! "server")))
                   "cloudflare"
    then push l0 "server: cloudflare" else l0 in
  let l2 :=
    if present (h !! "cf-ray") then push l1 "cf-ray header present"
    else l1 in
  let l3 :=
    if present (h !! "cf-cache-status")
    then push l2 "cf-cache-status header present" else l2 in
  l3.

(** Lines 64-67.  Reading a property of [httpInfo.headers] throws when the
    probe result has no [headers]. *)
Definition headerIndicationsOf (httpInfo : ProbeResult) : result (list string) :=
  match probe_headers httpInfo with
  | None =>
      Throw (TypeError "Cannot read properties of undefined (reading 'server')")
  | Some h => Ok (indications h)
  end.

(** Lines 70-78. *)
Definition inference (domain : string) (ipv4 nameservers : list string)
    (headerIndications ipsBehindCF : list string) (nsUsesCloudflare : bool)
  : Inference :=
  {| domain := domain;
     resolved_ips := ipv4;
     nameservers := nameservers;
     headerHints := headerIndications;
     ips_in_cloudflare_ranges := ipsBehindCF;
     ns_using_cloudflare := nsUsesCloudflare;
     likely_using_cloudflare :=
       nsUsesCloudflare
       || (0 <? Z.of_nat (length headerIndications))
       || (0 <? Z.of_nat (length ipsBehindCF)) |}.

(** Lines 58-78: the part of the handler after the last outbound call. *)
Definition conclude (domain : string) (ipv4 nameservers : list string)
    (httpInfo : ProbeResult) (cfRanges : list string) : result Inference :=
  let ipsBehindCF := ipsBehindCFOf ipv4 cfRanges in
  let nsUsesCloudflare := nsUsesCloudflareOf nameservers in
  match headerIndicationsOf httpInfo with
  | Throw e => Throw e
  | Ok headerIndications =>
      Ok (inference domain ipv4 nameservers headerIndications ipsBehindCF
                    nsUsesCloudflare)
  end.

(** Lines 16-78 for a non-empty domain. *)
Definition analyse (domain : string) : M Inference :=
  aJson <- doh domain "A" ;;
  let ipv4 := ipv4Of aJson in
  nsJson <- doh domain "NS" ;;
  let nameservers := nameserversOf nsJson in
  httpInfo <- probe domain ;;
  cfV4txt <- fetchText "https://www.cloudflare.com/ips-v4" ;;
  cfV6txt <- fetchText "https://www.cloudflare.com/ips-v6" ;;
  let cfRanges := cfRangesOf cfV4txt cfV6txt in
  lift (conclude domain ipv4 nameservers httpInfo cfRanges).

Definition jsonStrings (l : list string) : json := JArr (map JStr l).

Definition inferenceJson (i : Inference) : json :=
  JObj [("domain", JStr (domain i));
        ("resolved_ips", jsonStrings (resolved_ips i));
        ("nameservers", jsonStrings (nameservers i));
        ("headerHints", jsonStrings (headerHints i));
        ("ips_in_cloudflare_ranges", jsonStrings (ips_in_cloudflare_ranges i));
        ("ns_using_cloudflare", JBool (ns_using_cloudflare i));
        ("likely_using_cloudflare", JBool (likely_using_cloudflare i))].

Definition report (i : Inference) : Response :=
  {| responseStatus := 200;
     responseHeaders := [("Content-Type", "application/json")];
     responseBody := stringify2 (inferenceJson i) |}.

Definition onRequest (req : Request) : M Response :=
  domain <- lift (extractDomain req) ;;
  if String.eqb domain EmptyString then ret missingDomain
  else inference <- analyse domain ;; ret (report inference).

(** A request is served in a world from the empty list of calls. *)
Definition serve (w : World) (req : Request) : result Response * Trace :=
  onRequest req w [].

End Detect.

(** ** What a run shows

    The answers of the world to the calls of one request served from the
    empty trace, at the places where the handler makes them. *)

Module Run.
Import Js Detect.

Definition callA (d : string) : Call := dohCall d "A".
Definition callNS (d : string) : Call := dohCall d "NS".
Definition callHttps (d : string) : Call := probeCall "https" d.
Definition callHttp (d : string) : Call := probeCall "http" d.
Definition callV4 : Call := plainCall "https://www.cloudflare.com/ips-v4".
Definition callV6 : Call := plainCall "https://www.cloudflare.com/ips-v6".

Definition answerA (w : World) (d : string) : result FetchResponse :=
  w [] (callA d).

Definition answerNS (w : World) (d : string) : result FetchResponse :=
  w [callA d] (callNS d).

Definition firstProbe (w : World) (d : string) : result FetchResponse :=
  w [callA d; callNS d] (callHttps d).

Definition secondProbe (w : World) (d : string) : result FetchResponse :=
  w [callA d; callNS d; callHttps d] (callHttp d).

(** The upstream response has a status that is not a success. *)
Definition nonSuccess (o : result FetchResponse) : Prop :=
  exists r, o = Ok r /\ ok r = false.

(** The upstream response is a success whose JSON has no [Answer]. *)
Definition noAnswer (o : result FetchResponse) : Prop :=
  exists r, o = Ok r /\ ok r = true /\ json_body r = Ok {| Answer := None |}.

(** What [doh] makes of the world's answer: a rejection of the call or of
    the body read throws, a status that is no success gives [null]. *)
Definition lookup (o : result FetchResponse) : result (option DohJson) :=
  match o with
  | Throw e => Throw e
  | Ok r =>
      if ok r then
        match json_body r with
        | Ok j => Ok (Some j)
        | Throw e => Throw e
        end
      else Ok None
  end.

(** The records of a lookup: those of [Answer] in a successful response. *)
Definition records (o : result FetchResponse) : list DnsRecord :=
  match o with
  | Ok r =>
      if ok r then
        match json_body r with
        | Ok {| Answer := Some answer |} => answer
        | _ => []
        end
      else []
  | Throw _ => []
  end.

(** The probe attempts among the calls of a trace. *)
Definition isProbe (c : Call) : bool :=
  match method c with
  | HEAD => true
  | GET => false
  end.

Definition probes (tr : Trace) : list Call := List.filter isProbe tr.

(** The response of the attempt whose result the handler keeps. *)
Definition keptProbe (w : World) (d : string) : result FetchResponse :=
  match firstProbe w d with
  | Ok r => Ok r
  | Throw _ => secondProbe w d
  end.

(** What [tryFetch] makes of the world's answer. *)
Definition attempt (o : result FetchResponse) : ProbeResult :=
  match o with
  | Ok r => ProbeOk (status r) (collect (headers r))
  | Throw e => ProbeFail (errorString e)
  end.

(** The calls made when the probe is over. *)
Definition probeTrace (w : World) (d : string) : Trace :=
  [callA d; callNS d; callHttps d]
    ++ (if probe_ok (attempt (firstProbe w d)) then [] else [callHttp d]).

(** The text of a fetched document, and the range entries of the two
    documents the handler fetches after the probe. *)
Definition fetchedText (o : result FetchResponse) : result string :=
  match o with
  | Ok r => text r
  | Throw e => Throw e
  end.

Definition answerV4 (w : World) (d : string) : result FetchResponse :=
  w (probeTrace w d) callV4.

Definition answerV6 (w : World) (d : string) : result FetchResponse :=
  w (probeTrace w d ++ [callV4]) callV6.

Definition textOr (o : result string) : string :=
  match o with
  | Ok t => t
  | Throw _ => EmptyString
  end.

Definition cfRangesFetched (w : World) (d : string) : list string :=
  cfRangesOf (textOr (fetchedText (answerV4 w d)))
             (textOr (fetchedText (answerV6 w d))).

(** The result of the attempt that the handler keeps in [httpInfo]. *)
Definition keptAttempt (w : World) (d : string) : ProbeResult :=
  if probe_ok (attempt (firstProbe w d)) then attempt (firstProbe w d)
  else attempt (secondProbe w d).

(** A lookup completes: the resolver answers, and when its status is a
    success its body is the JSON of a resolver. *)
Definition lookupCompletes (o : result FetchResponse) : Prop :=
  exists r, o = Ok r /\ (ok r = true -> exists j, json_body r = Ok j).

(** The conditions of the three hints, on the captured headers. *)
Definition serverIsCloudflare (h : gmap string string) : bool :=
  match h !! "server" with
  | Some v => includes (toLowerCase v) "cloudflare"
  | None => false
  end.

Definition captured (k : string) (h : gmap string string) : bool :=
  match h !! k with
  | Some _ => true
  | None => false
  end.

Definition allHints : list string :=
  ["server: cloudflare"; "cf-ray header present";
   "cf-cache-status header present"].

(** The name the handler keeps of a record of the NS lookup. *)
Definition nsName (a : DnsRecord) : string :=
  toLowerCase (stripTrailingDot (data a)).

(** The addresses the handler keeps of the records of the A lookup. *)
Definition aData (answer : list DnsRecord) : list string :=
  map data (List.filter (fun a => type a =? 1) answer).

End Run.

(** ** Scenarios

    Worlds that answer each kind of call with a fixed response, and the
    requests and responses of the scenarios used below. *)

Module Scenario.
Import Js Detect Run.

(** A world that answers by the kind of the call alone. *)
Definition scripted (a ns https http v4 v6 : result FetchResponse) : World :=
  fun _ c =>
    match method c with
    | HEAD => if startsWith (url c) "https://" then https else http
    | GET =>
        if startsWith (url c) "https://cloudflare-dns.com/"
        then if includes (url c) "&type=NS&" then ns else a
        else if endsWith (url c) "ips-v4" then v4 else v6
    end.

Definition notJson : result DohJson :=
  Throw (Rejected "SyntaxError: Unexpected end of JSON input").

(** A resolver response with the status [st] and the parsed body [j]. *)
Definition resolver (st : Z) (j : DohJson) : result FetchResponse :=
  Ok {| status := st; headers := ∅; text := Ok EmptyString;
        json_body := Ok j |}.

(** A text document served with status 200. *)
Definition document (t : string) : result FetchResponse :=
  Ok {| status := 200; headers := ∅; text := Ok t; json_body := notJson |}.

(** A response to a HEAD request with the headers [hs]. *)
Definition head (st : Z) (hs : gmap string string) : result FetchResponse :=
  Ok {| status := st; headers := hs; text := Ok EmptyString;
        json_body := notJson |}.

Definition unreachable : result FetchResponse :=
  Throw (Rejected "TypeError: fetch failed").

Definition LF : string := str1 (chr 10).

Definition rangesV4 : result FetchResponse :=
  document ("173.245.48.0/20" +:+ LF +:+ "104.16.0.0/12" +:+ LF).

Definition rangesV6 : result FetchResponse :=
  document ("2400:cb00::/32" +:+ LF +:+ "2606:4700::/32" +:+ LF).

(** The text [{"error":"Missing domain"}]. *)
Definition missingDomainText : string :=
  "{" +:+ str1 dquote +:+ "error" +:+ str1 dquote +:+ ":"
      +:+ str1 dquote +:+ "Missing domain" +:+ str1 dquote +:+ "}".

Definition get (d : string) : Request :=
  {| searchParams := [("domain", d)]; body := None |}.

Definition post (j : json) : Request :=
  {| searchParams := []; body := Some j |}.

Definition answers (l : list DnsRecord) : DohJson := {| Answer := Some l |}.
Definition noAnswers : DohJson := {| Answer := None |}.

(** No A or NS record, and the HEAD probe fails on both transports. *)
Definition deadDomain : World :=
  scripted (resolver 200 noAnswers) (resolver 200 noAnswers)
           unreachable unreachable rangesV4 rangesV6.

(** An address outside the ranges, a foreign nameserver, and a
    [server: cloudflare] header: the header is the only signal. *)
Definition headerOnly : World :=
  scripted (resolver 200 (answers [{| type := 1; data := "93.184.216.34" |}]))
           (resolver 200 (answers [{| type := 2; data := "ns1.example.com." |}]))
           (head 200 (<["server" := "cloudflare"]> ∅))
           unreachable rangesV4 rangesV6.

(** The first scenario of the specification: an address inside a range, a
    foreign nameserver, and a [server: cloudflare] header. *)
Definition fronted : World :=
  scripted (resolver 200 (answers [{| type := 5; data := "edge.example.net." |};
                                   {| type := 1; data := "104.16.1.1" |};
                                   {| type := 1; data := "93.184.216.34" |}]))
           (resolver 200 (answers [{| type := 2; data := "ns1.example.com." |}]))
           (head 200 (<["server" := "cloudflare"]> ∅))
           unreachable rangesV4 rangesV6.

(** Nameservers of the provider, written in capitals with the final dot;
    the secure transport fails and the plain one answers with a redirect
    that carries the provider's headers. *)
Definition plainOnly : World :=
  scripted (resolver 200 (answers [{| type := 1; data := "203.0.113.7" |}]))
           (resolver 200 (answers [{| type := 2; data := "ADA.NS.CLOUDFLARE.COM." |};
                                   {| type := 2; data := "ns2.example.org." |}]))
           unreachable
           (head 301 (<["cf-ray" := "8a1b2c3d4e5f-AMS"]>
                      (<["cf-cache-status" := "DYNAMIC"]>
                       (<["server" := "nginx"]> ∅))))
           rangesV4 rangesV6.

(** The resolver answers both lookups with status 503. *)
Definition resolverDown : World :=
  scripted (resolver 503 noAnswers) (resolver 503 noAnswers)
           (head 200 ∅) unreachable rangesV4 rangesV6.

(** The resolver answers the A lookup with status 503 and the NS lookup
    with two records. *)
Definition resolverDownForA : World :=
  scripted (resolver 503 noAnswers)
           (resolver 200 (answers [{| type := 2; data := "ns1.example.com." |};
                                   {| type := 2; data := "ns2.example.com." |}]))
           (head 200 ∅) unreachable rangesV4 rangesV6.

(** The resolver answers both lookups with status 503 and the first range
    list cannot be fetched. *)
Definition resolverDownNoRanges : World :=
  scripted (resolver 503 noAnswers) (resolver 503 noAnswers)
           (head 200 ∅) unreachable unreachable rangesV6.

(** The resolver answers the A lookup with status 200 and a body that is
    not JSON. *)
Definition resolverGarbled : World :=
  scripted (Ok {| status := 200; headers := ∅; text := Ok "<html>";
                  json_body := notJson |})
           (resolver 200 noAnswers) (head 200 ∅) unreachable rangesV4 rangesV6.

(** A page served with the status 503. *)
Definition errorPage (t : string) : result FetchResponse :=
  Ok {| status := 503; headers := ∅; text := Ok t; json_body := notJson |}.

(** Both range lists are answered with an error page. *)
Definition rangesDown : World :=
  scripted (resolver 200 (answers [{| type := 1; data := "0.0.0.0" |}]))
           (resolver 200 noAnswers) (head 200 ∅) unreachable
           (errorPage "Service Unavailable") (errorPage "Service Unavailable").

(** A published list: its entries, each followed by the line ending
    [eol]. *)
Fixpoint terminated (eol : string) (entries : list string) : string :=
  match entries with
  | [] => EmptyString
  | e :: r => e +:+ eol +:+ terminated eol r
  end.

Definition CRLF : string := String (chr 13) (str1 (chr 10)).

(** An entry of a list: not empty, and free of CR and LF. *)
Definition isEntry (e : string) : bool :=
  negb (String.eqb e EmptyString)
  && allChars (fun c => negb (code c =? 10) && negb (code c =? 13)) e.

(** The inferences of the runs for [example.com] in three of these
    worlds. *)
Definition headerOnlyInference : Inference :=
  inference "example.com" ["93.184.216.34"] ["ns1.example.com"]
            ["server: cloudflare"] [] false.

Definition frontedInference : Inference :=
  inference "example.com" ["104.16.1.1"; "93.184.216.34"]
            ["ns1.example.com"] ["server: cloudflare"] ["104.16.1.1"] false.

Definition plainOnlyInference : Inference :=
  inference "example.com" ["203.0.113.7"]
            ["ada.ns.cloudflare.com"; "ns2.example.org"]
            ["cf-ray header present"; "cf-cache-status header present"]
            [] true.

End Scenario.

(** * Facts about the string functions *)

Module JsFacts.
Import Js.
#[local] Arguments String.append !_ _ / : simpl nomatch.

Lemma char_eqb_eq a b : char_eqb a b = true <-> a = b.
Proof. unfold char_eqb. apply Ascii.eqb_eq. Qed.

Lemma char_eqb_refl a : char_eqb a a = true.
Proof. by apply char_eqb_eq. Qed.

Lemma app_assoc_s (a b c : string) : (a +:+ b) +:+ c = a +:+ (b +:+ c).
Proof. induction a as [|x a IH]; simpl; [done | by f_equal]. Qed.

Lemma app_empty_r (a : string) : a +:+ "" = a.
Proof. induction a as [|x a IH]; simpl; [done | by f_equal]. Qed.

(** [startsWith s t] holds exactly when [t] is a prefix of [s]. *)
Lemma startsWith_spec s t :
  startsWith s t = true <-> exists q, s = t +:+ q.
Proof.
  revert s. induction t as [|b t IH]; intros s; simpl.
  - split; [intros _; by exists s | done].
  - destruct s as [|a s].
    + split; [done | intros [q Hq]; discriminate].
    + rewrite andb_true_iff, char_eqb_eq, IH. split.
      * intros [-> [q ->]]. by exists q.
      * intros [q Hq]. injection Hq as -> ->. split; [done | by exists q].
Qed.

(** [s.includes(t)] holds exactly when [t] occurs somewhere in [s]. *)
Lemma includes_spec s t :
  includes s t = true <-> exists p q, s = p +:+ t +:+ q.
Proof.
  induction s as [|a s IH].
  - simpl. rewrite orb_false_r, startsWith_spec. split.
    + intros [q Hq]. by exists "", q.
    + intros [p [q Hq]]. destruct p; [by exists q | discriminate].
  - cbn [includes]. rewrite orb_true_iff, startsWith_spec, IH. split.
    + intros [[q Hq] | [p [q Hq]]].
      * by exists "", q.
      * exists (String a p), q. simpl. by rewrite Hq.
    + intros [p [q Hq]]. destruct p as [|x p].
      * left. by exists q.
      * right. simpl in Hq. injection Hq as _ Hq. by exists p, q.
Qed.

(** [s.endsWith(t)] holds exactly when [t] is a suffix of [s]. *)
Lemma endsWith_spec s t :
  endsWith s t = true <-> exists p, s = p +:+ t.
Proof.
  induction s as [|a s IH].
  - cbn [endsWith]. rewrite orb_false_r, String.eqb_eq. split.
    + intros <-. by exists "".
    + intros [p Hp]. destruct p; [done | discriminate].
  - cbn [endsWith]. rewrite orb_true_iff, String.eqb_eq, IH. split.
    + intros [<- | [p ->]]; [by exists "" | by exists (String a p)].
    + intros [p Hp]. destruct p as [|x p].
      * by left.
      * right. simpl in Hp. injection Hp as _ Hp. by exists p.
Qed.

Lemma endsWith_includes s t : endsWith s t = true -> includes s t = true.
Proof.
  rewrite endsWith_spec, includes_spec. intros [p ->].
  exists p, "". by rewrite app_empty_r.
Qed.

(** The final dot is removed, and nothing else. *)
Lemma stripTrailingDot_dot p : stripTrailingDot (p +:+ ".") = p.
Proof.
  induction p as [|c p IH]; [done |].
  simpl. destruct (p +:+ ".") eqn:E.
  - destruct p; discriminate.
  - by rewrite IH.
Qed.

Lemma stripTrailingDot_other s :
  endsWith s "." = false -> stripTrailingDot s = s.
Proof.
  induction s as [|c s IH]; [done |].
  cbn [endsWith]. rewrite orb_false_iff. intros [Hc Hs].
  destruct s as [|d s].
  - simpl. destruct (code c =? 46) eqn:E; [| done].
    apply Z.eqb_eq in E. exfalso.
    assert (c = "."%char) as ->; [| discriminate].
    unfold code in E. apply (f_equal Z.to_N) in E. rewrite N2Z.id in E.
    apply (f_equal ascii_of_N) in E. by rewrite ascii_N_embedding in E.
  - change (stripTrailingDot (String c (String d s)))
      with (String c (stripTrailingDot (String d s))).
    by rewrite IH.
Qed.

Lemma lowerChar_dot c : (code (lowerChar c) =? 46) = (code c =? 46).
Proof. by destruct c as [[] [] [] [] [] [] [] []]. Qed.

(** Removing the final dot and changing the case commute. *)
Lemma stripTrailingDot_lower s :
  stripTrailingDot (toLowerCase s) = toLowerCase (stripTrailingDot s).
Proof.
  induction s as [|c s IH]; [done |].
  destruct s as [|d s].
  - simpl. rewrite lowerChar_dot. by destruct (code c =? 46).
  - change (toLowerCase (String c (String d s)))
      with (String (lowerChar c) (String (lowerChar d) (toLowerCase s))).
    change (stripTrailingDot (String c (String d s)))
      with (String c (stripTrailingDot (String d s))).
    change (stripTrailingDot
              (String (lowerChar c) (String (lowerChar d) (toLowerCase s))))
      with (String (lowerChar c)
              (stripTrailingDot (String (lowerChar d) (toLowerCase s)))).
    change (String (lowerChar d) (toLowerCase s))
      with (toLowerCase (String d s)).
    by rewrite IH.
Qed.

Lemma toLowerCase_app a b :
  toLowerCase (a +:+ b) = toLowerCase a +:+ toLowerCase b.
Proof. induction a as [|x a IH]; simpl; [done | by rewrite IH]. Qed.

(** A string of white space trims to the empty string. *)
Lemma trimStart_blank s : allChars isWhite s = true -> trimStart s = "".
Proof.
  induction s as [|c s IH]; [done |]. simpl.
  rewrite andb_true_iff. intros [-> Hs]. by apply IH.
Qed.

Lemma trim_blank s : allChars isWhite s = true -> trim s = "".
Proof. intros H. unfold trim. by rewrite trimStart_blank. Qed.

Lemma trimEnd_empty s : trimEnd s = "" -> allChars isWhite s = true.
Proof.
  induction s as [|c s IH]; [done |]. simpl.
  destruct (trimEnd s) eqn:E; [| done].
  destruct (isWhite c); [| done]. intros _. by rewrite IH.
Qed.

Lemma trimStart_white s :
  allChars isWhite (trimStart s) = true -> allChars isWhite s = true.
Proof.
  induction s as [|c s IH]; [done |]. simpl.
  destruct (isWhite c) eqn:E; simpl; [done |]. by rewrite E.
Qed.

(** [trim] gives the empty string exactly on the strings of white space. *)
Lemma trim_empty_iff s : trim s = "" <-> allChars isWhite s = true.
Proof.
  split; [| apply trim_blank].
  unfold trim. intros H. by apply trimStart_white, trimEnd_empty.
Qed.

Lemma toLowerCase_empty_iff s : toLowerCase s = "" <-> s = "".
Proof. destruct s; simpl; split; done. Qed.

(** Splitting and the characters of the pieces. *)
Lemma split_nonempty sep s : split sep s <> [].
Proof.
  destruct s as [|a s]; simpl; [done |].
  destruct (char_eqb a sep); [done |]. by destruct (split sep s).
Qed.

Lemma split_allChars P sep s :
  forallb (allChars P) (split sep s) = true ->
  allChars (fun c => P c || char_eqb c sep) s = true.
Proof.
  induction s as [|a s IH]; [done |]. simpl.
  destruct (char_eqb a sep) eqn:E.
  - simpl. intros H. rewrite orb_true_r. by apply IH.
  - destruct (split sep s) as [|p ps] eqn:Es.
    + by destruct (split_nonempty sep s).
    + simpl. rewrite !andb_true_iff. intros [[Ha Hp] Hps].
      rewrite Ha. split; [done |]. apply IH. simpl. by rewrite Hp, Hps.
Qed.

Lemma split_app_sep sep p q :
  allChars (fun c => negb (char_eqb c sep)) p = true ->
  split sep (p +:+ String sep q) = p :: split sep q.
Proof.
  induction p as [|a p IH]; simpl.
  - intros _. by rewrite char_eqb_refl.
  - rewrite andb_true_iff, negb_true_iff. intros [-> Hp]. by rewrite IH.
Qed.

Lemma indexOfFrom_absent i s c :
  allChars (fun a => negb (char_eqb a c)) s = true -> indexOfFrom i s c = -1.
Proof.
  revert i. induction s as [|a s IH]; intros i; [done |]. simpl.
  rewrite andb_true_iff, negb_true_iff. intros [-> Hs]. by apply IH.
Qed.

Lemma allChars_app P a b :
  allChars P (a +:+ b) = allChars P a && allChars P b.
Proof. induction a as [|x a IH]; simpl; [done | by rewrite IH, andb_assoc]. Qed.

Lemma allChars_impl (P Q : ascii -> bool) s :
  (forall c, P c = true -> Q c = true) ->
  allChars P s = true -> allChars Q s = true.
Proof.
  intros HPQ. induction s as [|c s IH]; [done |]. simpl.
  rewrite !andb_true_iff. intros [Hc Hs]. split; [by apply HPQ | by apply IH].
Qed.

End JsFacts.

(** * Facts about CIDR containment *)

Module CidrFacts.
Import Js Number Cidr JsFacts.
#[local] Arguments String.append !_ _ / : simpl nomatch.

(** [ipToInt] always gives an unsigned 32-bit integer. *)
Lemma ipToInt_range ip : exists u, ipToInt ip = Num u /\ 0 <= u < 2 ^ 32.
Proof.
  unfold ipToInt, ushr.
  set (x := fold_left _ _ _).
  change (Z.land (ToUint32 (Num 0)) 31) with 0. rewrite Z.shiftr_0_r.
  exists (ToUint32 x). split; [done |].
  destruct x; simpl; try lia. apply Z.mod_pos_bound. lia.
Qed.

Lemma band_same x m : strictEq (band x m) (band x m) = true.
Proof. unfold band, strictEq. apply Z.eqb_refl. Qed.

Lemma wrap32_idem z : wrap32 (wrap32 z) = wrap32 z.
Proof.
  unfold wrap32.
  replace ((z + 2 ^ 31) mod 2 ^ 32 - 2 ^ 31 + 2 ^ 31)
    with ((z + 2 ^ 31) mod 2 ^ 32) by lia.
  by rewrite Z.mod_mod.
Qed.

Lemma wrap32_zero u : 0 <= u < 2 ^ 32 -> wrap32 u = 0 -> u = 0.
Proof.
  unfold wrap32. intros Hu H.
  destruct (Z_lt_ge_dec u (2 ^ 31)) as [Hlt | Hge].
  - rewrite Z.mod_small in H by lia. lia.
  - assert (E : (u + 2 ^ 31) mod 2 ^ 32 = u + 2 ^ 31 - 2 ^ 32).
    { symmetry. apply (Z.mod_unique_pos _ _ 1); lia. }
    lia.
Qed.

(** The mask the handler computes for the prefix length 0 has every bit
    set: the shift count 32 is taken modulo 32. *)
Lemma mask_of_slash0 :
  ushr (shl (bnot (Num 0)) (sub (Num 32) (parseInt (ToString (Some "0")))))
       (Num 0) = Num 4294967295.
Proof. reflexivity. Qed.

(** Against [0.0.0.0/0] the handler's test accepts the addresses whose
    integer is 0, and no other. *)
Lemma cidrContains_slash0 ip :
  cidrContains "0.0.0.0/0" ip = true <-> ipToInt ip = Num 0.
Proof.
  unfold cidrContains.
  change (negb (indexOf "0.0.0.0/0" ":" =? -1)) with false. cbv iota.
  change (split "/" "0.0.0.0/0") with ["0.0.0.0"; "0"]. cbv zeta.
  change (nth_error ["0.0.0.0"; "0"] 1) with (Some "0").
  change (nth 0 ["0.0.0.0"; "0"] "") with "0.0.0.0".
  cbv iota beta. rewrite mask_of_slash0.
  change (band (ipToInt "0.0.0.0") (Num 4294967295)) with (Num 0).
  destruct (ipToInt_range ip) as [u [-> Hu]].
  unfold band, strictEq.
  change (ToInt32 (Num 4294967295)) with (-1). rewrite Z.land_m1_r.
  change (ToInt32 (Num u)) with (wrap32 u).
  rewrite wrap32_idem, Z.eqb_eq. split.
  - intros H. f_equal. by apply wrap32_zero.
  - by intros [= ->].
Qed.

(** On a valid dotted quad [ipToInt] is the address it denotes. *)
Lemma wrap32_mod z : wrap32 z mod 2 ^ 32 = z mod 2 ^ 32.
Proof.
  unfold wrap32. rewrite Zminus_mod, Z.mod_mod by lia.
  rewrite <- Zminus_mod. f_equal. lia.
Qed.

Lemma wrap32_bound z : - 2 ^ 31 <= wrap32 z < 2 ^ 31.
Proof.
  unfold wrap32. pose proof (Z.mod_pos_bound (z + 2 ^ 31) (2 ^ 32)). lia.
Qed.

Lemma digit_facts c :
  isDigit c = true ->
  isWhite c = false /\ (code c =? 45) = false /\ (code c =? 43) = false
  /\ (0 <= code c - 48 <= 9).
Proof.
  destruct c as [[] [] [] [] [] [] [] []]; vm_compute; intros H;
    first [discriminate H | repeat split; congruence].
Qed.

Lemma digitsValue_nonneg s acc seen v :
  0 <= acc -> digitsValue s acc seen = Some v -> 0 <= v.
Proof.
  revert acc seen. induction s as [|c s IH]; intros acc seen Hacc; simpl.
  - destruct seen; [by intros [= <-] | done].
  - destruct (isDigit c) eqn:Hc.
    + apply IH. apply digit_facts in Hc. lia.
    + destruct seen; [by intros [= <-] | done].
Qed.

Lemma parseInt_octet s :
  isOctet s = true ->
  parseInt s = Num (octetValue s) /\ 0 <= octetValue s <= 255.
Proof.
  unfold isOctet, octetValue, parseInt. rewrite andb_true_iff.
  intros [Hd Hv]. destruct (digitsValue s 0 false) as [v |] eqn:E; [| done].
  apply Z.leb_le in Hv.
  pose proof (digitsValue_nonneg _ _ _ _ (Z.le_refl 0) E) as Hpos.
  destruct s as [|c s]; [done |].
  simpl in Hd. apply andb_true_iff in Hd as [Hc _].
  apply digit_facts in Hc as (Hw & Hm & Hp & _).
  cbn [trimStart]. rewrite Hw, Hm, Hp, E.
  split; [| done]. unfold toDouble.
  assert ((Z.abs v <? 2 ^ 53) = true) as ->; [apply Z.ltb_lt; lia | done].
Qed.

Lemma step_octet X v :
  0 <= v <= 255 ->
  exists y, add (shl X (Num 8)) (Num v) = Num y
            /\ y mod 2 ^ 32 = (ToUint32 X * 256 + v) mod 2 ^ 32.
Proof.
  intros Hv. unfold shl, add.
  change (Z.land (ToUint32 (Num 8)) 31) with 8.
  set (z := wrap32 (Z.shiftl (ToInt32 X) 8)).
  pose proof (wrap32_bound (Z.shiftl (ToInt32 X) 8)) as Hz. fold z in Hz.
  exists (z + v). split.
  - unfold toDouble.
    assert ((Z.abs (z + v) <? 2 ^ 53) = true) as ->;
      [apply Z.ltb_lt; lia | done].
  - subst z. rewrite <- Z.add_mod_idemp_l by lia.
    rewrite wrap32_mod, Z.add_mod_idemp_l by lia.
    rewrite Z.shiftl_mul_pow2 by lia. change (2 ^ 8) with 256.
    assert (ToInt32 X mod 2 ^ 32 = ToUint32 X) as <-.
    { destruct X; try done. apply wrap32_mod. }
    symmetry. rewrite <- Z.add_mod_idemp_l by lia.
    rewrite Z.mul_mod_idemp_l by lia. by rewrite Z.add_mod_idemp_l by lia.
Qed.

Lemma fold_octets l X x :
  forallb isOctet l = true ->
  (exists y, X = Num y /\ y mod 2 ^ 32 = x mod 2 ^ 32) ->
  exists y,
    fold_left (fun acc oct => add (shl acc (Num 8)) (parseInt oct)) l X = Num y
    /\ y mod 2 ^ 32
       = fold_left (fun acc oct => acc * 256 + octetValue oct) l x mod 2 ^ 32.
Proof.
  revert X x. induction l as [|o l IH]; intros X x Hl HX; [done |].
  simpl in Hl. apply andb_true_iff in Hl as [Ho Hl].
  apply parseInt_octet in Ho as [Hp Hv].
  cbn [fold_left]. rewrite Hp. apply IH; [done |].
  destruct (step_octet X _ Hv) as [y [Hy Hm]]. exists y. split; [done |].
  rewrite Hm. destruct HX as [y0 [-> Hy0]]. cbn [ToUint32].
  rewrite <- Z.add_mod_idemp_l by lia. rewrite Z.mul_mod_idemp_l by lia.
  rewrite Z.add_mod_idemp_l by lia.
  rewrite <- (Z.add_mod_idemp_l (y0 * 256)) by lia.
  rewrite <- Z.mul_mod_idemp_l by lia. rewrite Hy0.
  rewrite Z.mul_mod_idemp_l by lia. by rewrite Z.add_mod_idemp_l by lia.
Qed.

Lemma ipToInt_valid ip :
  valid_ipv4 ip = true ->
  ipToInt ip = Num (addressValue ip) /\ 0 <= addressValue ip < 2 ^ 32.
Proof.
  unfold valid_ipv4, ipToInt, addressValue. intros H.
  destruct (split "." ip) as [|a [|b [|c [|d [|? ?]]]]]; try discriminate H.
  assert (Hl : forallb isOctet [a; b; c; d] = true).
  { simpl. rewrite andb_true_r, !andb_assoc. exact H. }
  destruct (fold_octets [a; b; c; d] (Num 0) 0 Hl) as [y [Hy Hm]];
    [by exists 0 |].
  rewrite Hy. unfold ushr.
  change (Z.land (ToUint32 (Num 0)) 31) with 0. rewrite Z.shiftr_0_r.
  cbn [ToUint32]. rewrite Hm. clear Hy Hm Hl.
  rewrite !andb_true_iff in H. destruct H as [[[Ha Hb] Hc] Hd].
  apply parseInt_octet in Ha as [_ Ha], Hb as [_ Hb], Hc as [_ Hc],
    Hd as [_ Hd].
  cbn [fold_left].
  assert (Hr : 0 <= ((0 * 256 + octetValue a) * 256 + octetValue b) * 256 * 256
                    + octetValue c * 256 + octetValue d < 2 ^ 32) by lia.
  replace ((((0 * 256 + octetValue a) * 256 + octetValue b) * 256
            + octetValue c) * 256 + octetValue d)
    with (((0 * 256 + octetValue a) * 256 + octetValue b) * 256 * 256
          + octetValue c * 256 + octetValue d) by lia.
  rewrite Z.mod_small by exact Hr. done.
Qed.

(** An address is contained in the /32 range written from its own text,
    whenever that text has neither a colon nor a slash. *)
Lemma cidrContains_self32 ip :
  allChars (fun c => negb (char_eqb c ":")) ip = true ->
  allChars (fun c => negb (char_eqb c "/")) ip = true ->
  cidrContains (ip +:+ "/32") ip = true.
Proof.
  intros Hcolon Hslash. unfold cidrContains, indexOf.
  rewrite indexOfFrom_absent.
  2:{ by rewrite allChars_app, Hcolon. }
  change (negb (-1 =? -1)) with false. cbv iota.
  change (ip +:+ "/32") with (ip +:+ String "/" "32").
  rewrite split_app_sep by done.
  change (split "/" "32") with ["32"]. cbv zeta.
  change (nth_error [ip; "32"] 1) with (Some "32").
  change (nth 0 [ip; "32"] "") with ip.
  cbv iota beta. apply band_same.
Qed.

Lemma band_full u : band (Num u) (Num 4294967295) = Num (wrap32 u).
Proof.
  unfold band. change (ToInt32 (Num 4294967295)) with (-1).
  rewrite Z.land_m1_r. change (ToInt32 (Num u)) with (wrap32 u).
  by rewrite wrap32_idem.
Qed.

Lemma wrap32_inj u v :
  0 <= u < 2 ^ 32 -> 0 <= v < 2 ^ 32 -> wrap32 u = wrap32 v -> u = v.
Proof.
  intros Hu Hv H. apply (f_equal (fun z => z mod 2 ^ 32)) in H.
  rewrite !wrap32_mod in H. by rewrite !Z.mod_small in H.
Qed.

Lemma digit_or_dot c :
  isDigit c || char_eqb c "." = true ->
  negb (char_eqb c ":") = true /\ negb (char_eqb c "/") = true.
Proof.
  destruct c as [[] [] [] [] [] [] [] []]; vm_compute; intros H;
    first [discriminate H | by split].
Qed.

Lemma valid_ipv4_chars ip :
  valid_ipv4 ip = true ->
  allChars (fun c => isDigit c || char_eqb c ".") ip = true.
Proof.
  unfold valid_ipv4. intros H. apply split_allChars.
  destruct (split "." ip) as [|a [|b [|c [|d [|? ?]]]]]; try discriminate H.
  unfold isOctet in H. simpl.
  rewrite !andb_true_iff in H. destruct H as [[[[-> _] [-> _]] [-> _]] [-> _]].
  done.
Qed.

(** Against the /32 range of a valid dotted quad the test accepts exactly
    the valid dotted quads that denote the same address. *)
Lemma cidrContains_slash32 ip ip' :
  valid_ipv4 ip = true -> valid_ipv4 ip' = true ->
  cidrContains (ip +:+ "/32") ip' = true <-> addressValue ip = addressValue ip'.
Proof.
  intros Hv Hv'.
  pose proof (ipToInt_valid _ Hv) as [Hi Hr].
  pose proof (ipToInt_valid _ Hv') as [Hi' Hr'].
  pose proof (valid_ipv4_chars _ Hv) as Hc.
  pose proof digit_or_dot as Hn.
  unfold cidrContains, indexOf.
  rewrite indexOfFrom_absent.
  2:{ rewrite allChars_app. apply andb_true_iff. split; [| done].
      eapply allChars_impl; [| exact Hc]. intros c H. by apply Hn in H as [? _]. }
  change (negb (-1 =? -1)) with false. cbv iota.
  change (ip +:+ "/32") with (ip +:+ String "/" "32").
  rewrite split_app_sep.
  2:{ eapply allChars_impl; [| exact Hc]. intros c H. by apply Hn in H as [_ ?]. }
  change (split "/" "32") with ["32"]. cbv zeta.
  change (nth_error [ip; "32"] 1) with (Some "32").
  change (nth 0 [ip; "32"] "") with ip. cbv iota beta.
  change (ushr (shl (bnot (Num 0)) (sub (Num 32) (parseInt (ToString (Some "32")))))
               (Num 0)) with (Num 4294967295).
  rewrite Hi, Hi', !band_full. unfold strictEq. rewrite Z.eqb_eq. split.
  - by apply wrap32_inj.
  - by intros ->.
Qed.

End CidrFacts.

(** * Facts about the handler *)

Module DetectFacts.
Import Js Number Cidr Json Detect Run JsFacts.
Local Open Scope handler_scope.

(** The equations of the effectful steps. *)
Lemma doh_eq d t w tr :
  doh d t w tr =
  (lookup (w tr (dohCall d t)), tr ++ [dohCall d t]).
Proof.
  unfold doh, bind, fetch, lift, ret, lookup.
  destruct (w tr (dohCall d t)) as [r | e]; [| done].
  destruct (ok r); simpl; [| done]. by destruct (json_body r).
Qed.

Lemma tryFetch_eq d p w tr :
  tryFetch d p w tr =
  (Ok match w tr (probeCall p d) with
      | Ok r => ProbeOk (status r) (collect (headers r))
      | Throw e => ProbeFail (errorString e)
      end, tr ++ [probeCall p d]).
Proof.
  unfold tryFetch, try_catch, bind, fetch, ret.
  by destruct (w tr (probeCall p d)).
Qed.

Lemma probe_eq d w tr :
  probe d w tr =
  match w tr (callHttps d) with
  | Ok r => (Ok (ProbeOk (status r) (collect (headers r))), tr ++ [callHttps d])
  | Throw _ =>
      (Ok match w (tr ++ [callHttps d]) (callHttp d) with
          | Ok r => ProbeOk (status r) (collect (headers r))
          | Throw e => ProbeFail (errorString e)
          end, tr ++ [callHttps d; callHttp d])
  end.
Proof.
  unfold probe, bind. rewrite tryFetch_eq. unfold callHttps, callHttp.
  destruct (w tr (probeCall "https" d)) as [r | e]; simpl; [done |].
  rewrite tryFetch_eq. by rewrite <- app_assoc.
Qed.

Lemma fetchText_eq u w tr :
  fetchText u w tr =
  (match w tr (plainCall u) with
   | Ok r => text r
   | Throw e => Throw e
   end, tr ++ [plainCall u]).
Proof.
  unfold fetchText, bind, fetch, lift.
  by destruct (w tr (plainCall u)).
Qed.

Lemma analyse_eq d w tr :
  analyse d w tr =
  match doh d "A" w tr with
  | (Throw e, t1) => (Throw e, t1)
  | (Ok aJson, t1) =>
      match doh d "NS" w t1 with
      | (Throw e, t2) => (Throw e, t2)
      | (Ok nsJson, t2) =>
          match probe d w t2 with
          | (Throw e, t3) => (Throw e, t3)
          | (Ok httpInfo, t3) =>
              match fetchText "https://www.cloudflare.com/ips-v4" w t3 with
              | (Throw e, t4) => (Throw e, t4)
              | (Ok cfV4txt, t4) =>
                  match fetchText "https://www.cloudflare.com/ips-v6" w t4 with
                  | (Throw e, t5) => (Throw e, t5)
                  | (Ok cfV6txt, t5) =>
                      (conclude d (ipv4Of aJson) (nameserversOf nsJson)
                                httpInfo (cfRangesOf cfV4txt cfV6txt), t5)
                  end
              end
          end
      end
  end.
Proof.
  unfold analyse, bind, lift.
  destruct (doh d "A" w tr) as [[aJson | e] t1]; [| done].
  destruct (doh d "NS" w t1) as [[nsJson | e] t2]; [| done].
  destruct (probe d w t2) as [[httpInfo | e] t3]; [| done].
  destruct (fetchText _ w t3) as [[v4 | e] t4]; [| done].
  by destruct (fetchText _ w t4) as [[v6 | e] t5].
Qed.

Lemma doh_records (o : result FetchResponse) j :
  lookup o = Ok j ->
  ipv4Of j = aData (records o) /\ nameserversOf j = map nsName (records o).
Proof.
  destruct o as [r | e]; [| done]. simpl.
  destruct (ok r); [| by intros [= <-]].
  destruct (json_body r) as [[[answer |]] | e]; [| | done]; by intros [= <-].
Qed.

Lemma doh_completes (o : result FetchResponse) :
  lookupCompletes o -> exists j, lookup o = Ok j.
Proof.
  intros [r [-> Hr]]. simpl. destruct (ok r); [| by exists None].
  destruct Hr as [j ->]; [done |]. by exists (Some j).
Qed.

Lemma doh_throws (o : result FetchResponse) e :
  lookup o = Throw e -> ~ lookupCompletes o.
Proof.
  intros H [r [-> Hr]]. simpl in H. destruct (ok r); [| done].
  destruct Hr as [j Hj]; [done |]. by rewrite Hj in H.
Qed.

Lemma lookup_Ok_completes (o : result FetchResponse) j :
  lookup o = Ok j -> lookupCompletes o.
Proof.
  destruct o as [r |]; [| done]. simpl. intros H. exists r. split; [done |].
  intros Hr. rewrite Hr in H. destruct (json_body r); [by eexists | done].
Qed.

(** Runs of [analyse] for a domain [d] in a world [w], from the empty
    trace. *)
Section Runs.
Variables (d : string) (w : World).

(** A run that returns has kept a successful probe, has made the calls of
    [probeTrace] and the two range fetches, and returns the inference built
    from the world's answers. *)
Lemma analyse_Ok inf tr' :
  analyse d w [] = (Ok inf, tr') ->
  exists rp t4 t6,
    keptProbe w d = Ok rp /\
    fetchedText (answerV4 w d) = Ok t4 /\
    fetchedText (answerV6 w d) = Ok t6 /\
    tr' = probeTrace w d ++ [callV4; callV6] /\
    inf = inference d (aData (records (answerA w d)))
            (map nsName (records (answerNS w d)))
            (indications (collect (headers rp)))
            (ipsBehindCFOf (aData (records (answerA w d)))
                           (cfRangesFetched w d))
            (nsUsesCloudflareOf (map nsName (records (answerNS w d)))).
Proof.
  rewrite analyse_eq, !doh_eq. simpl app.
  fold (callA d) (callNS d) (answerA w d) (answerNS w d).
  destruct (lookup (answerA w d)) as [aJson | e] eqn:EA; [| done].
  destruct (lookup (answerNS w d)) as [nsJson | e] eqn:ENS; [| done].
  apply doh_records in EA as [-> _]. apply doh_records in ENS as [_ ->].
  rewrite probe_eq. simpl app.
  unfold cfRangesFetched, answerV4, answerV6, probeTrace, keptProbe.
  fold (firstProbe w d) (secondProbe w d).
  destruct (firstProbe w d) as [r1 | e1]; simpl attempt; simpl probe_ok;
    cbv iota; simpl app.
  - rewrite fetchText_eq. fold callV4.
    destruct (w _ callV4) as [r4 | e]; simpl; [| done].
    destruct (text r4) as [t4 | e]; [| done].
    rewrite fetchText_eq. fold callV6.
    destruct (w _ callV6) as [r6 | e]; simpl; [| done].
    destruct (text r6) as [t6 | e]; [| done].
    intros [= <- <-]. by exists r1, t4, t6.
  - rewrite fetchText_eq. fold callV4.
    destruct (w _ callV4) as [r4 | e]; simpl; [| done].
    destruct (text r4) as [t4 | e]; [| done].
    rewrite fetchText_eq. fold callV6.
    destruct (w _ callV6) as [r6 | e]; simpl; [| done].
    destruct (text r6) as [t6 | e]; [| done].
    destruct (secondProbe w d) as [r2 | e2]; simpl; [| done].
    intros [= <- <-]. by exists r2, t4, t6.
Qed.

(** When both lookups complete and both range lists are read, the run is
    the conclusion drawn from the world's answers and the attempt kept. *)
Lemma analyse_run t4 t6 :
  lookupCompletes (answerA w d) ->
  lookupCompletes (answerNS w d) ->
  fetchedText (answerV4 w d) = Ok t4 ->
  fetchedText (answerV6 w d) = Ok t6 ->
  analyse d w [] =
  (conclude d (aData (records (answerA w d)))
            (map nsName (records (answerNS w d)))
            (keptAttempt w d) (cfRangesOf t4 t6),
   probeTrace w d ++ [callV4; callV6]).
Proof.
  intros HA HNS H4 H6.
  rewrite analyse_eq, !doh_eq. simpl app.
  fold (callA d) (callNS d) (answerA w d) (answerNS w d).
  destruct (doh_completes _ HA) as [aJson EA].
  destruct (doh_completes _ HNS) as [nsJson ENS].
  rewrite EA, ENS.
  apply doh_records in EA as [-> _]. apply doh_records in ENS as [_ ->].
  rewrite probe_eq. simpl app.
  revert H4 H6. unfold answerV4, answerV6, probeTrace, keptAttempt.
  fold (firstProbe w d) (secondProbe w d).
  destruct (firstProbe w d) as [r1 | e1]; simpl attempt; simpl probe_ok;
    cbv iota; simpl app; intros H4 H6.
  - rewrite fetchText_eq. fold callV4. unfold fetchedText in H4. rewrite H4.
    rewrite fetchText_eq. fold callV6. unfold fetchedText in H6.
    simpl app. by rewrite H6.
  - rewrite fetchText_eq. fold callV4. unfold fetchedText in H4. rewrite H4.
    rewrite fetchText_eq. fold callV6. unfold fetchedText in H6.
    simpl app. by rewrite H6.
Qed.

Lemma probes_probeTrace :
  probes (probeTrace w d) =
  callHttps d :: (if probe_ok (attempt (firstProbe w d)) then [] else [callHttp d]).
Proof. unfold probeTrace. by destruct (probe_ok _). Qed.

Lemma probes_app a b : probes (a ++ b) = probes a ++ probes b.
Proof. unfold probes. apply List.filter_app. Qed.

(** The probe attempts of any run, whatever its outcome: none when a
    lookup throws, otherwise those of [probeTrace]. *)
Lemma analyse_probes out tr' :
  analyse d w [] = (out, tr') ->
  (~ (lookupCompletes (answerA w d) /\ lookupCompletes (answerNS w d))
   /\ probes tr' = [])
  \/ (lookupCompletes (answerA w d) /\ lookupCompletes (answerNS w d)
      /\ probes tr' = probes (probeTrace w d)).
Proof.
  rewrite analyse_eq, !doh_eq. simpl app.
  fold (callA d) (callNS d) (answerA w d) (answerNS w d).
  destruct (lookup (answerA w d)) as [aJson | e] eqn:EA.
  2:{ intros [= <- <-]. left. split; [| done].
      intros [HA _]. by apply doh_throws in EA. }
  destruct (lookup (answerNS w d)) as [nsJson | e] eqn:ENS.
  2:{ intros [= <- <-]. left. split; [| done].
      intros [_ HNS]. by apply doh_throws in ENS. }
  pose proof (lookup_Ok_completes _ _ EA) as HA.
  pose proof (lookup_Ok_completes _ _ ENS) as HNS.
  intros H. right. split; [done |]. split; [done |]. revert H.
  rewrite probe_eq. simpl app. unfold probeTrace.
  fold (firstProbe w d) (secondProbe w d).
  destruct (firstProbe w d) as [r1 | e1]; simpl attempt; simpl probe_ok;
    cbv iota; simpl app.
  - rewrite fetchText_eq. fold callV4.
    destruct (match w _ callV4 with Ok _ => _ | Throw _ => _ end);
      [| by intros [= <- <-]].
    rewrite fetchText_eq. fold callV6.
    destruct (match w _ callV6 with Ok _ => _ | Throw _ => _ end);
      by intros [= <- <-].
  - rewrite fetchText_eq. fold callV4.
    destruct (match w _ callV4 with Ok _ => _ | Throw _ => _ end);
      [| by intros [= <- <-]].
    rewrite fetchText_eq. fold callV6.
    destruct (match w _ callV6 with Ok _ => _ | Throw _ => _ end);
      by intros [= <- <-].
Qed.

End Runs.

(** From a run [H] that returns an inference: the response of the probe
    kept, the texts of the two range lists, and the inference itself. *)
Ltac of_run H :=
  let rp := fresh "rp" in
  let t4 := fresh "t4" in
  let t6 := fresh "t6" in
  apply analyse_Ok in H as (rp & t4 & t6 & ?Hkept & ?Hv4 & ?Hv6 & _ & ->).

(** The captured headers are those of the list that the response has with
    a non-empty value. *)
Lemma collect_fold (hs : gmap string string) (ks : list string)
    (acc : gmap string string) (k : string) :
  fold_left
    (fun (h : gmap string string) k =>
       match hs !! k with
       | Some v => if String.eqb v EmptyString then h else <[k := v]> h
       | None => h
       end) ks acc !! k =
  match hs !! k with
  | Some v =>
      if bool_decide (k ∈ ks) && negb (String.eqb v EmptyString)
      then Some v else acc !! k
  | None => acc !! k
  end.
Proof.
  revert acc. induction ks as [|k' ks IH]; intros acc.
  - simpl. by destruct (hs !! k).
  - cbn [fold_left]. rewrite IH. clear IH.
    destruct (hs !! k) as [v |] eqn:Hk.
    + destruct (decide (k = k')) as [<- | Hne].
      * rewrite Hk. rewrite (bool_decide_eq_true_2 (k ∈ k :: ks)) by set_solver.
        destruct (String.eqb v "") eqn:Ev; simpl.
        -- by rewrite andb_false_r.
        -- rewrite lookup_insert_eq. by destruct (bool_decide _).
      * assert (bool_decide (k ∈ k' :: ks) = bool_decide (k ∈ ks)) as ->.
        { apply bool_decide_ext. rewrite elem_of_cons. tauto. }
        destruct (bool_decide (k ∈ ks) && negb (String.eqb v "")); [done |].
        destruct (hs !! k') as [v' |]; [| done].
        destruct (String.eqb v' ""); [done |]. by rewrite lookup_insert_ne.
    + destruct (hs !! k') as [v' |] eqn:Hk'; [| done].
      destruct (String.eqb v' ""); [done |].
      rewrite lookup_insert_ne; [done |]. intros ->. congruence.
Qed.

Lemma collect_lookup (hs : gmap string string) (k v : string) :
  collect hs !! k = Some v <->
  k ∈ interesting /\ hs !! k = Some v /\ v <> "".
Proof.
  unfold collect. rewrite collect_fold, lookup_empty.
  destruct (hs !! k) as [v' |]; [| by split; [| intros (_ & ? & _)]].
  destruct (bool_decide (k ∈ interesting)) eqn:Hin; simpl.
  - apply bool_decide_eq_true in Hin.
    destruct (String.eqb v' "") eqn:Ev; simpl.
    + apply String.eqb_eq in Ev. split; [done |]. intros (_ & [= ->] & Hv). done.
    + apply String.eqb_neq in Ev. split.
      * by intros [= ->].
      * by intros (_ & ? & _).
  - apply bool_decide_eq_false in Hin. split; [done |]. by intros (? & _).
Qed.

Lemma present_collect (hs : gmap string string) (k : string) : present (collect hs !! k) = captured k (collect hs).
Proof.
  unfold present, captured. destruct (collect hs !! k) as [v |] eqn:E; [| done].
  apply collect_lookup in E as (_ & _ & Hv).
  apply String.eqb_neq in Hv. by rewrite Hv.
Qed.

(** The hints, condition by condition. *)
Lemma indications_collect (hs : gmap string string) :
  indications (collect hs) =
  (if serverIsCloudflare (collect hs) then ["server: cloudflare"] else [])
  ++ (if captured "cf-ray" (collect hs) then ["cf-ray header present"] else [])
  ++ (if captured "cf-cache-status" (collect hs)
      then ["cf-cache-status header present"] else []).
Proof.
  unfold indications, push. rewrite !present_collect.
  unfold serverIsCloudflare, captured.
  destruct (collect hs !! "server") as [v |]; simpl;
    [destruct (includes (toLowerCase v) "cloudflare") |];
    destruct (collect hs !! "cf-ray");
    by destruct (collect hs !! "cf-cache-status").
Qed.

Lemma filter_sublist {A} (f : A -> bool) (l : list A) :
  sublist (List.filter f l) l.
Proof.
  induction l as [|x l IH]; simpl; [constructor |].
  destruct (f x); by constructor.
Qed.

Lemma existsb_elem_of {A} (f : A -> bool) (l : list A) :
  existsb f l = true <-> exists x, x ∈ l /\ f x = true.
Proof.
  rewrite existsb_exists. by setoid_rewrite list_elem_of_In.
Qed.

Lemma filter_elem_of {A} (f : A -> bool) (l : list A) x :
  x ∈ List.filter f l <-> x ∈ l /\ f x = true.
Proof. rewrite !list_elem_of_In. apply filter_In. Qed.

(** The handler, by cases on the domain it extracts. *)
Lemma onRequest_eq req w tr :
  onRequest req w tr =
  match extractDomain req with
  | Throw e => (Throw e, tr)
  | Ok d =>
      if String.eqb d "" then (Ok missingDomain, tr)
      else match analyse d w tr with
           | (Ok inf, tr') => (Ok (report inf), tr')
           | (Throw e, tr') => (Throw e, tr')
           end
  end.
Proof.
  unfold onRequest, bind, lift, ret.
  destruct (extractDomain req) as [d | e]; [| done].
  by destruct (String.eqb d "").
Qed.

(** A response comes from the missing-domain branch or is the report of the
    inference of a run. *)
Lemma serve_response w req resp tr' :
  serve w req = (Ok resp, tr') ->
  (extractDomain req = Ok "" /\ resp = missingDomain /\ tr' = [])
  \/ exists d inf,
       extractDomain req = Ok d /\ d <> "" /\
       analyse d w [] = (Ok inf, tr') /\ resp = report inf.
Proof.
  unfold serve. rewrite onRequest_eq.
  destruct (extractDomain req) as [d | e]; [| done].
  destruct (String.eqb d "") eqn:Ed.
  - apply String.eqb_eq in Ed as ->. intros [= <- <-]. by left.
  - apply String.eqb_neq in Ed.
    destruct (analyse d w []) as [[inf | e] t] eqn:E; [| done].
    intros H. right. exists d, inf.
    assert (resp = report inf /\ tr' = t) as [-> ->] by (split; congruence).
    done.
Qed.

End DetectFacts.

(** * The claims of the specification *)

Import Js Number Cidr Json Detect Run Scenario.
Import JsFacts CidrFacts DetectFacts.

(** ** CIDR containment *)

(** C2.  Containment against [0.0.0.0/0] is not true of every address: the
    address [1.2.3.4] is rejected, and so is every address other than
    [0.0.0.0], because the mask computed for the prefix length 0 has all
    its bits set. *)
Theorem slash0_rejects_address :
  cidrContains "0.0.0.0/0" "1.2.3.4" = false
  /\ valid_ipv4 "1.2.3.4" = true
  /\ (forall ip, cidrContains "0.0.0.0/0" ip = true <-> ipToInt ip = Num 0)
  /\ (forall ip, valid_ipv4 ip = true ->
        (cidrContains "0.0.0.0/0" ip = true <-> addressValue ip = 0)).
Proof.
  split; [reflexivity |]. split; [reflexivity |].
  split; [apply cidrContains_slash0 |].
  intros ip Hv. rewrite cidrContains_slash0.
  destruct (ipToInt_valid _ Hv) as [-> _]. split; [by intros [= ->] | by intros ->].
Qed.

(** C8.  Containment is reflexive at /32: a valid dotted quad is contained
    in the range written from its own text followed by [/32]. *)
Theorem cidr_reflexive_32 ip :
  valid_ipv4 ip = true -> cidrContains (ip +:+ "/32") ip = true.
Proof.
  intros H. apply valid_ipv4_chars in H.
  apply cidrContains_self32;
    (eapply allChars_impl; [| exact H]); intros c Hc;
    by apply digit_or_dot in Hc as [? ?].
Qed.

Lemma cidr_reflexive_32_witness :
  cidrContains ("104.16.1.1" +:+ "/32") "104.16.1.1" = true.
Proof. apply (cidr_reflexive_32 "104.16.1.1"). reflexivity. Defined.

(** ** The verdict *)

Lemma length_pos_nonempty {A} (l : list A) :
  (0 <? Z.of_nat (length l)) = true <-> l <> [].
Proof.
  destruct l as [|x l].
  - simpl. split; [discriminate | congruence].
  - split; [done |]. intros _. apply Z.ltb_lt. simpl length. lia.
Qed.

(** C3.  In the inference of every run that returns one,
    [likely_using_cloudflare] is true exactly when [ns_using_cloudflare] is
    true, or [headerHints] is not empty, or [ips_in_cloudflare_ranges] is
    not empty; so it is true when a header hint is the only signal. *)
Theorem likely_is_disjunction w d inf tr' :
  analyse d w [] = (Ok inf, tr') ->
  (likely_using_cloudflare inf = true <->
   ns_using_cloudflare inf = true
   \/ headerHints inf <> []
   \/ ips_in_cloudflare_ranges inf <> [])
  /\ (ns_using_cloudflare inf = false ->
      ips_in_cloudflare_ranges inf = [] ->
      headerHints inf <> [] ->
      likely_using_cloudflare inf = true).
Proof.
  intros H. of_run H.
  cbn [likely_using_cloudflare ns_using_cloudflare headerHints
       ips_in_cloudflare_ranges inference].
  rewrite !orb_true_iff, !length_pos_nonempty. split; [tauto |].
  intros _ _ Hh. left. by right.
Qed.

(** A run in which the [server] header is the only signal. *)
Lemma likely_header_only :
  ns_using_cloudflare headerOnlyInference = false
  /\ ips_in_cloudflare_ranges headerOnlyInference = []
  /\ headerHints headerOnlyInference = ["server: cloudflare"]
  /\ likely_using_cloudflare headerOnlyInference = true.
Proof.
  split; [reflexivity |]. split; [reflexivity |]. split; [reflexivity |].
  refine (proj2 (likely_is_disjunction headerOnly "example.com"
            headerOnlyInference
            (probeTrace headerOnly "example.com" ++ [callV4; callV6]) _)
            _ _ _); [vm_compute; reflexivity | reflexivity | reflexivity |].
  discriminate.
Defined.

(** C10.  In the inference of every run that returns one,
    [ips_in_cloudflare_ranges] consists of the elements of [resolved_ips]
    that some fetched range entry contains, in the same order: it is a
    sublist of [resolved_ips]. *)
Theorem ips_in_ranges_sublist w d inf tr' :
  analyse d w [] = (Ok inf, tr') ->
  ips_in_cloudflare_ranges inf =
    List.filter
      (fun ip => existsb (fun r => cidrContains r ip) (cfRangesFetched w d))
      (resolved_ips inf)
  /\ sublist (ips_in_cloudflare_ranges inf) (resolved_ips inf)
  /\ (forall ip,
        ip ∈ ips_in_cloudflare_ranges inf <->
        ip ∈ resolved_ips inf
        /\ exists r, r ∈ cfRangesFetched w d /\ cidrContains r ip = true)
  /\ (exists cfV4txt cfV6txt,
        fetchedText (answerV4 w d) = Ok cfV4txt
        /\ fetchedText (answerV6 w d) = Ok cfV6txt
        /\ cfRangesFetched w d = cfRangesOf cfV4txt cfV6txt).
Proof.
  intros H. of_run H.
  cbn [ips_in_cloudflare_ranges resolved_ips inference].
  unfold ipsBehindCFOf. split; [done |]. split; [apply filter_sublist |].
  split.
  - intros ip. by rewrite filter_elem_of, existsb_elem_of.
  - exists t4, t6. unfold cfRangesFetched. by rewrite Hv4, Hv6.
Qed.

Lemma ips_in_ranges_fronted :
  sublist (ips_in_cloudflare_ranges frontedInference)
          (resolved_ips frontedInference).
Proof.
  refine (proj1 (proj2 (ips_in_ranges_sublist fronted "example.com"
            frontedInference
            (probeTrace fronted "example.com" ++ [callV4; callV6]) _))).
  vm_compute. reflexivity.
Defined.

(** ** Nameservers *)

Lemma nsUsesCloudflareOf_spec (l : list DnsRecord) :
  nsUsesCloudflareOf (map nsName l) = true <->
  exists a, a ∈ l /\
    ((exists p, nsName a = p +:+ "ns.cloudflare.com")
     \/ (exists p q, nsName a = p +:+ "cloudflare" +:+ q)).
Proof.
  unfold nsUsesCloudflareOf. rewrite existsb_elem_of. split.
  - intros [n [Hn Hm]]. apply list_elem_of_fmap in Hn as [a [-> Ha]].
    exists a. split; [done |].
    by rewrite orb_true_iff, endsWith_spec, includes_spec in Hm.
  - intros [a [Ha Hm]]. exists (nsName a). split.
    + apply list_elem_of_fmap. by exists a.
    + by rewrite orb_true_iff, endsWith_spec, includes_spec.
Qed.

(** C5.  In the inference of every run that returns one, [nameservers]
    holds the names of the records of the NS lookup with one final dot
    removed and in lower case, and [ns_using_cloudflare] is true exactly
    when one of these names ends with [ns.cloudflare.com] or contains
    [cloudflare]; a record named [NS.CLOUDFLARE.COM.] or
    [ns.cloudflare.com] makes it true.  The name kept depends neither on
    the case of the record's name nor on one final dot. *)
Theorem nameserver_matching w d inf tr' :
  analyse d w [] = (Ok inf, tr') ->
  nameservers inf =
    map (fun a => toLowerCase (stripTrailingDot (data a)))
        (records (answerNS w d))
  /\ (ns_using_cloudflare inf = true <->
      exists a, a ∈ records (answerNS w d) /\
        let name := toLowerCase (stripTrailingDot (data a)) in
        (exists p, name = p +:+ "ns.cloudflare.com")
        \/ (exists p q, name = p +:+ "cloudflare" +:+ q))
  /\ (forall a, a ∈ records (answerNS w d) ->
        data a = "NS.CLOUDFLARE.COM." \/ data a = "ns.cloudflare.com" ->
        ns_using_cloudflare inf = true)
  /\ (forall s t,
        toLowerCase s = toLowerCase t ->
        toLowerCase (stripTrailingDot s) = toLowerCase (stripTrailingDot t))
  /\ (forall s,
        toLowerCase (stripTrailingDot (s +:+ ".")) = toLowerCase s
        /\ (endsWith s "." = false ->
            toLowerCase (stripTrailingDot s) = toLowerCase s)).
Proof.
  intros H. of_run H.
  cbn [nameservers ns_using_cloudflare inference].
  split; [done |]. split; [apply nsUsesCloudflareOf_spec |].
  split; [| split].
  - intros a Ha Hd. apply nsUsesCloudflareOf_spec. exists a. split; [done |].
    left. exists "". unfold nsName. by destruct Hd as [-> | ->].
  - intros s t Hst. by rewrite <- !stripTrailingDot_lower, Hst.
  - intros s. split.
    + by rewrite stripTrailingDot_dot.
    + intros Hs. by rewrite stripTrailingDot_other.
Qed.

Lemma nameserver_matching_plainOnly :
  nameservers plainOnlyInference =
    map (fun a => toLowerCase (stripTrailingDot (data a)))
        [{| type := 2; data := "ADA.NS.CLOUDFLARE.COM." |};
         {| type := 2; data := "ns2.example.org." |}].
Proof.
  refine (proj1 (nameserver_matching plainOnly "example.com"
            plainOnlyInference
            (probeTrace plainOnly "example.com" ++ [callV4; callV6]) _)).
  vm_compute. reflexivity.
Defined.

(** ** Header hints *)

Lemma serverIsCloudflare_spec (h : gmap string string) :
  serverIsCloudflare h = true <->
  exists v, h !! "server" = Some v /\
    exists p q, toLowerCase v = p +:+ "cloudflare" +:+ q.
Proof.
  unfold serverIsCloudflare. destruct (h !! "server") as [v |].
  - rewrite includes_spec. split.
    + intros Hv. by exists v.
    + by intros [v' [[= <-] Hv]].
  - split; [done | by intros [v [? _]]].
Qed.

Lemma captured_spec k (h : gmap string string) :
  captured k h = true <-> is_Some (h !! k).
Proof.
  unfold captured. by destruct (h !! k); split; try done; intros [? ?].
Qed.

(** The three hints are distinct, so a list that takes each of them or not,
    in their order, is a sublist of [allHints] without repetition in which
    each hint occurs exactly when it was taken. *)
Lemma hints_shape (b1 b2 b3 : bool) :
  let l := (if b1 then ["server: cloudflare"] else [])
           ++ (if b2 then ["cf-ray header present"] else [])
           ++ (if b3 then ["cf-cache-status header present"] else []) in
  sublist l allHints
  /\ NoDup l
  /\ ("server: cloudflare" ∈ l <-> b1 = true)
  /\ ("cf-ray header present" ∈ l <-> b2 = true)
  /\ ("cf-cache-status header present" ∈ l <-> b3 = true)
  /\ (forall x, x ∈ l -> x ∈ allHints).
Proof.
  intros l.
  assert (Hsub : sublist l allHints).
  { subst l. unfold allHints.
    destruct b1, b2, b3; simpl;
      repeat first [apply sublist_nil | apply sublist_skip | apply sublist_cons]. }
  split; [done |].
  split; [subst l; destruct b1, b2, b3; by apply (bool_decide_unpack _) |].
  split; [subst l; destruct b1, b2, b3; by apply (bool_decide_unpack _) |].
  split; [subst l; destruct b1, b2, b3; by apply (bool_decide_unpack _) |].
  split; [subst l; destruct b1, b2, b3; by apply (bool_decide_unpack _) |].
  intros x Hx. by apply (sublist_subseteq _ _ Hsub).
Qed.

(** C9.  In the inference of every run that returns one, [headerHints] is
    made of [server: cloudflare] when the captured [server] header, in lower
    case, contains [cloudflare], then [cf-ray header present] when [cf-ray]
    was captured, then [cf-cache-status header present] when
    [cf-cache-status] was captured, the headers being those captured from
    the probe response that the handler kept (those of its [server],
    [cf-ray], [cf-cache-status], [via] and [x-powered-by] headers that have
    a non-empty value); nothing else occurs in it and nothing occurs
    twice. *)
Theorem header_hints_exact w d inf tr' :
  analyse d w [] = (Ok inf, tr') ->
  exists rp, keptProbe w d = Ok rp /\
    let h := collect (headers rp) in
    headerHints inf =
      (if serverIsCloudflare h then ["server: cloudflare"] else [])
      ++ (if captured "cf-ray" h then ["cf-ray header present"] else [])
      ++ (if captured "cf-cache-status" h
          then ["cf-cache-status header present"] else [])
    /\ sublist (headerHints inf) allHints
    /\ NoDup (headerHints inf)
    /\ ("server: cloudflare" ∈ headerHints inf <->
        exists v, h !! "server" = Some v /\
          exists p q, toLowerCase v = p +:+ "cloudflare" +:+ q)
    /\ ("cf-ray header present" ∈ headerHints inf <-> is_Some (h !! "cf-ray"))
    /\ ("cf-cache-status header present" ∈ headerHints inf <->
        is_Some (h !! "cf-cache-status"))
    /\ (forall x, x ∈ headerHints inf -> x ∈ allHints)
    /\ (forall k v,
          h !! k = Some v <->
          k ∈ interesting /\ headers rp !! k = Some v /\ v <> "").
Proof.
  intros H. of_run H.
  exists rp. split; [done |]. cbn [headerHints inference]. cbv zeta.
  rewrite indications_collect.
  rewrite <- serverIsCloudflare_spec, <- !captured_spec.
  split; [done |].
  pose proof (hints_shape (serverIsCloudflare (collect (headers rp)))
                (captured "cf-ray" (collect (headers rp)))
                (captured "cf-cache-status" (collect (headers rp)))) as Hs.
  cbv zeta in Hs. destruct Hs as (H1 & H2 & H3 & H4 & H5 & H6).
  repeat (split; [done |]). apply collect_lookup.
Qed.

Lemma header_hints_plainOnly :
  sublist (headerHints plainOnlyInference) allHints.
Proof.
  destruct (header_hints_exact plainOnly "example.com" plainOnlyInference
              (probeTrace plainOnly "example.com" ++ [callV4; callV6]))
    as (rp & _ & _ & H & _); [vm_compute; reflexivity | exact H].
Defined.

(** ** The request *)

Lemma extractDomain_empty_iff req :
  extractDomain req = Ok "" <->
  exists s, rawDomain req = Some (JStr s) /\ allChars isWhite s = true.
Proof.
  unfold extractDomain. split.
  - destruct (rawDomain req) as [[| | | s | |] |]; try discriminate.
    intros [= H]. exists s. split; [done |].
    by apply trim_empty_iff, toLowerCase_empty_iff.
  - intros [s [-> Hs]]. by rewrite trim_blank.
Qed.

(** No [domain] parameter and a body that is not JSON. *)
Lemma extractDomain_unparseable req :
  searchParams_get "domain" (searchParams req) = None ->
  body req = None ->
  extractDomain req = Ok "".
Proof.
  intros Hq Hb. unfold extractDomain, rawDomain, bodyDomain.
  by rewrite Hq, Hb.
Qed.

(** No [domain] parameter and a JSON object without a [domain] field. *)
Lemma extractDomain_missing req fields :
  searchParams_get "domain" (searchParams req) = None ->
  body req = Some (JObj fields) ->
  getField "domain" fields = None ->
  extractDomain req = Ok "".
Proof.
  intros Hq Hb Hf. unfold extractDomain, rawDomain, bodyDomain.
  by rewrite Hq, Hb, Hf.
Qed.

(** A [domain] parameter made of white space, at least one character. *)
Lemma extractDomain_blank req s :
  searchParams_get "domain" (searchParams req) = Some s ->
  s <> "" ->
  allChars isWhite s = true ->
  extractDomain req = Ok "".
Proof.
  intros Hq Hne Hs. apply extractDomain_empty_iff.
  unfold rawDomain. rewrite Hq. simpl.
  apply String.eqb_neq in Hne. rewrite Hne. simpl. by exists s.
Qed.

(** No [domain] parameter and a [domain] field made of white space. *)
Lemma extractDomain_blank_body req fields s :
  searchParams_get "domain" (searchParams req) = None ->
  body req = Some (JObj fields) ->
  getField "domain" fields = Some (JStr s) ->
  allChars isWhite s = true ->
  extractDomain req = Ok "".
Proof.
  intros Hq Hb Hf Hs. apply extractDomain_empty_iff.
  unfold rawDomain, bodyDomain. rewrite Hq, Hb, Hf. simpl.
  destruct (String.eqb s "") eqn:E; simpl; [| by exists s]. by exists "".
Qed.

(** C4.  When the domain extracted from the request, trimmed and in lower
    case, is empty, the handler answers with the status 400 and the body
    [{"error":"Missing domain"}] and makes no outbound call: the trace is
    unchanged. *)
Theorem missing_domain_is_400 w req tr :
  extractDomain req = Ok "" ->
  onRequest req w tr = (Ok missingDomain, tr)
  /\ responseStatus missingDomain = 400
  /\ responseBody missingDomain = missingDomainText
  /\ serve w req = (Ok missingDomain, []).
Proof.
  intros H. unfold serve. rewrite !onRequest_eq, H. simpl. done.
Qed.

(** The three ways in which the domain is missing: a parameter of white
    space, no parameter and no JSON body, no parameter and a body without
    the field. *)
Lemma missing_domain_cases :
  serve deadDomain (get (" " +:+ str1 (chr 9) +:+ " ")) = (Ok missingDomain, [])
  /\ serve deadDomain {| searchParams := [("host", "a.example")];
                         body := None |} = (Ok missingDomain, [])
  /\ serve deadDomain (post (JObj [("name", JStr "a.example")]))
     = (Ok missingDomain, []).
Proof.
  split; [| split].
  - refine (proj2 (proj2 (proj2 (missing_domain_is_400 deadDomain _ [] _)))).
    vm_compute. reflexivity.
  - refine (proj2 (proj2 (proj2 (missing_domain_is_400 deadDomain _ [] _)))).
    vm_compute. reflexivity.
  - refine (proj2 (proj2 (proj2 (missing_domain_is_400 deadDomain _ [] _)))).
    vm_compute. reflexivity.
Defined.

(** ** The probe *)

Lemma probes_length w d : (length (probes (probeTrace w d)) <= 2)%nat.
Proof. rewrite probes_probeTrace. destruct (probe_ok _); simpl; lia. Qed.

(** C6.  In every run, whatever its outcome: no probe is attempted when a
    lookup throws; otherwise the secure transport is attempted first and
    the plain transport exactly when the first attempt's [ok] is false, so
    there are at most two attempts; and when the run reaches the
    conclusion, the probe result it concludes from is the first attempt's
    when its [ok] is true and the second attempt's otherwise. *)
Theorem probe_policy w d out tr' :
  analyse d w [] = (out, tr') ->
  let first := attempt (firstProbe w d) in
  let second := attempt (secondProbe w d) in
  (probes tr' = []
   \/ probes tr' = callHttps d :: (if probe_ok first then [] else [callHttp d]))
  /\ (lookupCompletes (answerA w d) -> lookupCompletes (answerNS w d) ->
      probes tr' = callHttps d :: (if probe_ok first then [] else [callHttp d]))
  /\ (length (probes tr') <= 2)%nat
  /\ (probe_ok first = false <-> exists e, firstProbe w d = Throw e)
  /\ (forall t4 t6,
        lookupCompletes (answerA w d) -> lookupCompletes (answerNS w d) ->
        fetchedText (answerV4 w d) = Ok t4 ->
        fetchedText (answerV6 w d) = Ok t6 ->
        out = conclude d (aData (records (answerA w d)))
                (map nsName (records (answerNS w d)))
                (if probe_ok first then first else second)
                (cfRangesOf t4 t6)).
Proof.
  intros H first second.
  pose proof (analyse_probes _ _ _ _ H) as Hp.
  pose proof (probes_probeTrace d w) as Ht. fold first in Ht.
  split; [| split; [| split; [| split]]].
  - destruct Hp as [[_ Hp] | (_ & _ & Hp)]; [by left | right; congruence].
  - intros HA HNS. destruct Hp as [[Hn _] | (_ & _ & Hp)]; [| congruence].
    by destruct Hn.
  - destruct Hp as [[_ ->] | (_ & _ & ->)]; [simpl; lia | apply probes_length].
  - subst first. destruct (firstProbe w d) as [r | e]; simpl.
    + split; [done | by intros [e ?]].
    + split; [by exists e | done].
  - intros t4 t6 HA HNS H4 H6.
    rewrite (analyse_run _ _ _ _ HA HNS H4 H6) in H.
    by injection H as <- _.
Qed.

Lemma probe_policy_plainOnly :
  probes (probeTrace plainOnly "example.com" ++ [callV4; callV6])
  = [callHttps "example.com"; callHttp "example.com"].
Proof.
  refine (proj1 (proj2 (probe_policy plainOnly "example.com"
            (Ok plainOnlyInference)
            (probeTrace plainOnly "example.com" ++ [callV4; callV6]) _)) _ _).
  - vm_compute. reflexivity.
  - eexists. split; [reflexivity |]. intros _. by eexists.
  - eexists. split; [reflexivity |]. intros _. by eexists.
Defined.

(** C1.  When the HEAD probe fails on both transports the request does not
    complete: each failure is caught by [tryFetch], but the result kept has
    no [headers], and the handler throws a TypeError where it reads the
    [server] header (line 65), after the two range lists were fetched. *)
Theorem both_probes_fail_throws :
  extractDomain (get "nx.example") = Ok "nx.example"
  /\ firstProbe deadDomain "nx.example" = unreachable
  /\ secondProbe deadDomain "nx.example" = unreachable
  /\ probe "nx.example" deadDomain [callA "nx.example"; callNS "nx.example"]
     = (Ok (ProbeFail "TypeError: fetch failed"),
        [callA "nx.example"; callNS "nx.example";
         callHttps "nx.example"; callHttp "nx.example"])
  /\ serve deadDomain (get "nx.example")
     = (Throw (TypeError
                 "Cannot read properties of undefined (reading 'server')"),
        [callA "nx.example"; callNS "nx.example";
         callHttps "nx.example"; callHttp "nx.example"; callV4; callV6]).
Proof. repeat split; vm_compute; reflexivity. Qed.

(** The same in every world: a run in which both attempts fail returns no
    inference, and throws the TypeError when everything else succeeds. *)
Lemma probes_fail_no_inference w d e1 e2 :
  firstProbe w d = Throw e1 ->
  secondProbe w d = Throw e2 ->
  (forall inf tr', analyse d w [] <> (Ok inf, tr'))
  /\ (forall t4 t6,
        lookupCompletes (answerA w d) -> lookupCompletes (answerNS w d) ->
        fetchedText (answerV4 w d) = Ok t4 ->
        fetchedText (answerV6 w d) = Ok t6 ->
        fst (analyse d w []) =
        Throw (TypeError
                 "Cannot read properties of undefined (reading 'server')")).
Proof.
  intros H1 H2. split.
  - intros inf tr' H. apply analyse_Ok in H as (rp & _ & _ & Hk & _).
    unfold keptProbe in Hk. rewrite H1, H2 in Hk. discriminate.
  - intros t4 t6 HA HNS H4 H6. rewrite (analyse_run _ _ _ _ HA HNS H4 H6).
    unfold keptAttempt. by rewrite H1, H2.
Qed.

(** ** Resolver failures *)

Lemma records_nonSuccess o : nonSuccess o \/ noAnswer o -> records o = [].
Proof.
  intros [[r [-> Hr]] | [r [-> [Hr Hj]]]]; simpl; rewrite Hr; [done |].
  by rewrite Hj.
Qed.

Lemma completes_nonSuccess o : nonSuccess o \/ noAnswer o -> lookupCompletes o.
Proof.
  intros [[r [-> Hr]] | [r [-> [Hr Hj]]]]; exists r; (split; [done |]).
  - intros H. congruence.
  - intros _. by eexists.
Qed.

(** Every run, by the first step that throws. *)
Lemma analyse_outcome d w :
  analyse d w [] =
  match lookup (answerA w d) with
  | Throw e => (Throw e, [callA d])
  | Ok aJson =>
      match lookup (answerNS w d) with
      | Throw e => (Throw e, [callA d; callNS d])
      | Ok nsJson =>
          match fetchedText (answerV4 w d) with
          | Throw e => (Throw e, probeTrace w d ++ [callV4])
          | Ok cfV4txt =>
              match fetchedText (answerV6 w d) with
              | Throw e => (Throw e, probeTrace w d ++ [callV4; callV6])
              | Ok cfV6txt =>
                  (conclude d (ipv4Of aJson) (nameserversOf nsJson)
                            (keptAttempt w d) (cfRangesOf cfV4txt cfV6txt),
                   probeTrace w d ++ [callV4; callV6])
              end
          end
      end
  end.
Proof.
  rewrite analyse_eq, !doh_eq. simpl app.
  fold (callA d) (callNS d) (answerA w d) (answerNS w d).
  destruct (lookup (answerA w d)) as [aJson | e]; [| done].
  destruct (lookup (answerNS w d)) as [nsJson | e]; [| done].
  rewrite probe_eq. simpl app.
  unfold answerV4, answerV6, probeTrace, keptAttempt, fetchedText.
  fold (firstProbe w d) (secondProbe w d).
  destruct (firstProbe w d) as [r1 | e1]; simpl attempt; simpl probe_ok;
    cbv iota; simpl app.
  - rewrite fetchText_eq. fold callV4.
    destruct (w _ callV4) as [r4 | e]; [| done].
    destruct (text r4) as [t4 | e]; [| done].
    rewrite fetchText_eq. fold callV6. simpl app.
    destruct (w _ callV6) as [r6 | e]; [| done].
    by destruct (text r6).
  - rewrite fetchText_eq. fold callV4.
    destruct (w _ callV4) as [r4 | e]; [| done].
    destruct (text r4) as [t4 | e]; [| done].
    rewrite fetchText_eq. fold callV6. simpl app.
    destruct (w _ callV6) as [r6 | e]; [| done].
    by destruct (text r6).
Qed.

Lemma trace_after_A d w out tr' aJson :
  analyse d w [] = (out, tr') ->
  lookup (answerA w d) = Ok aJson ->
  exists more, tr' = callA d :: callNS d :: more.
Proof.
  rewrite analyse_outcome. intros H EA. rewrite EA in H.
  assert (Hpt : forall l, exists more,
            probeTrace w d ++ l = callA d :: callNS d :: more).
  { intros l. unfold probeTrace. by eexists. }
  destruct (lookup (answerNS w d)) as [nsJson | e].
  2:{ apply pair_equal_spec in H as [_ <-]. by exists []. }
  destruct (fetchedText (answerV4 w d)) as [t4 | e].
  2:{ apply pair_equal_spec in H as [_ <-]. apply Hpt. }
  destruct (fetchedText (answerV6 w d)) as [t6 | e];
    apply pair_equal_spec in H as [_ <-]; apply Hpt.
Qed.

Lemma trace_after_NS d w out tr' aJson nsJson :
  analyse d w [] = (out, tr') ->
  lookup (answerA w d) = Ok aJson ->
  lookup (answerNS w d) = Ok nsJson ->
  exists more, tr' = callA d :: callNS d :: callHttps d :: more.
Proof.
  rewrite analyse_outcome. intros H EA ENS. rewrite EA, ENS in H.
  assert (Hpt : forall l, exists more,
            probeTrace w d ++ l = callA d :: callNS d :: callHttps d :: more).
  { intros l. unfold probeTrace. by eexists. }
  destruct (fetchedText (answerV4 w d)) as [t4 | e].
  2:{ apply pair_equal_spec in H as [_ <-]. apply Hpt. }
  destruct (fetchedText (answerV6 w d)) as [t6 | e];
    apply pair_equal_spec in H as [_ <-]; apply Hpt.
Qed.

Lemma lookup_nonSuccess o :
  nonSuccess o -> lookup o = Ok None.
Proof. intros [r [-> Hr]]. simpl. by rewrite Hr. Qed.

(** The response of a request whose lookups complete, whose probe succeeds
    on one transport and whose range lists are read. *)
Lemma serve_completes w req d rp t4 t6 :
  extractDomain req = Ok d ->
  d <> "" ->
  lookupCompletes (answerA w d) ->
  lookupCompletes (answerNS w d) ->
  keptProbe w d = Ok rp ->
  fetchedText (answerV4 w d) = Ok t4 ->
  fetchedText (answerV6 w d) = Ok t6 ->
  exists inf tr',
    serve w req = (Ok (report inf), tr')
    /\ responseStatus (report inf) = 200
    /\ analyse d w [] = (Ok inf, tr')
    /\ resolved_ips inf = aData (records (answerA w d))
    /\ nameservers inf = map nsName (records (answerNS w d)).
Proof.
  intros Hd Hne HA HNS Hk H4 H6.
  pose proof (analyse_run d w t4 t6 HA HNS H4 H6) as Hrun.
  assert (Hkept : keptAttempt w d = ProbeOk (status rp) (collect (headers rp))).
  { revert Hk. unfold keptProbe, keptAttempt.
    destruct (firstProbe w d) as [r1 | e1]; simpl; [by intros [= ->] |].
    by intros ->. }
  rewrite Hkept in Hrun. unfold conclude in Hrun. simpl in Hrun.
  eexists _, _. split; [| split; [done |]; split; [exact Hrun |]]; [| done].
  unfold serve. rewrite onRequest_eq, Hd.
  apply String.eqb_neq in Hne. by rewrite Hne, Hrun.
Qed.

(** C7.  For a request with the non-empty domain [d], and for each of its
    two lookups: when the response of the resolver has a status that is no
    success, [doh] returns null without throwing; null, and a body without
    [Answer], are read as the empty list, so [resolved_ips] is empty when
    the A lookup failed so and [nameservers] is empty when the NS lookup
    did; the failed lookup does not abort the request, which goes on to the
    next call (the NS lookup after the A lookup, the probe after the NS
    lookup); and the request is answered with the status 200 and the report
    of an inference, the list of the failed lookup being empty and the other
    list being that of the other lookup's records, when the rest of the run
    completes (the other lookup, the probe on one transport, the two range
    lists). *)
Theorem dns_failure_gives_empty_lists w req d :
  extractDomain req = Ok d ->
  d <> "" ->
  (forall t tr r,
     w tr (dohCall d t) = Ok r -> ok r = false ->
     doh d t w tr = (Ok None, tr ++ [dohCall d t]))
  /\ (ipv4Of None = [] /\ nameserversOf None = []
      /\ ipv4Of (Some {| Answer := None |}) = []
      /\ nameserversOf (Some {| Answer := None |}) = [])
  /\ (forall inf tr',
        analyse d w [] = (Ok inf, tr') ->
        (nonSuccess (answerA w d) \/ noAnswer (answerA w d) ->
         resolved_ips inf = [])
        /\ (nonSuccess (answerNS w d) \/ noAnswer (answerNS w d) ->
            nameservers inf = []))
  /\ (forall out tr',
        analyse d w [] = (out, tr') ->
        nonSuccess (answerA w d) \/ noAnswer (answerA w d) ->
        exists more, tr' = callA d :: callNS d :: more)
  /\ (forall out tr',
        analyse d w [] = (out, tr') ->
        lookupCompletes (answerA w d) ->
        nonSuccess (answerNS w d) \/ noAnswer (answerNS w d) ->
        exists more, tr' = callA d :: callNS d :: callHttps d :: more)
  /\ (forall rp t4 t6,
        nonSuccess (answerA w d) \/ noAnswer (answerA w d) ->
        lookupCompletes (answerNS w d) ->
        keptProbe w d = Ok rp ->
        fetchedText (answerV4 w d) = Ok t4 ->
        fetchedText (answerV6 w d) = Ok t6 ->
        exists inf tr',
          serve w req = (Ok (report inf), tr')
          /\ responseStatus (report inf) = 200
          /\ analyse d w [] = (Ok inf, tr')
          /\ resolved_ips inf = []
          /\ nameservers inf = map nsName (records (answerNS w d)))
  /\ (forall rp t4 t6,
        lookupCompletes (answerA w d) ->
        nonSuccess (answerNS w d) \/ noAnswer (answerNS w d) ->
        keptProbe w d = Ok rp ->
        fetchedText (answerV4 w d) = Ok t4 ->
        fetchedText (answerV6 w d) = Ok t6 ->
        exists inf tr',
          serve w req = (Ok (report inf), tr')
          /\ responseStatus (report inf) = 200
          /\ analyse d w [] = (Ok inf, tr')
          /\ resolved_ips inf = aData (records (answerA w d))
          /\ nameservers inf = [])
  /\ (forall rp t4 t6,
        nonSuccess (answerA w d) \/ noAnswer (answerA w d) ->
        nonSuccess (answerNS w d) \/ noAnswer (answerNS w d) ->
        keptProbe w d = Ok rp ->
        fetchedText (answerV4 w d) = Ok t4 ->
        fetchedText (answerV6 w d) = Ok t6 ->
        exists inf tr',
          serve w req = (Ok (report inf), tr')
          /\ responseStatus (report inf) = 200
          /\ analyse d w [] = (Ok inf, tr')
          /\ resolved_ips inf = [] /\ nameservers inf = []).
Proof.
  intros Hd Hne.
  split; [| split; [done |]; split; [| split; [| split; [| split;
    [| split]]]]].
  - intros t tr r Hr Hok. rewrite doh_eq, Hr. simpl. by rewrite Hok.
  - intros inf tr' H. of_run H.
    cbn [resolved_ips nameservers inference].
    split; intros Ho; by rewrite (records_nonSuccess _ Ho).
  - intros out tr' H HA.
    destruct (doh_completes _ (completes_nonSuccess _ HA)) as [aJson EA].
    by apply (trace_after_A d w out tr' aJson).
  - intros out tr' H HA HNS.
    destruct (doh_completes _ HA) as [aJson EA].
    destruct (doh_completes _ (completes_nonSuccess _ HNS)) as [nsJson ENS].
    by apply (trace_after_NS d w out tr' aJson nsJson).
  - intros rp t4 t6 HA HNS Hk H4 H6.
    destruct (serve_completes w req d rp t4 t6 Hd Hne
                (completes_nonSuccess _ HA) HNS Hk H4 H6)
      as (inf & tr' & Hs & Hst & Hrun & Hips & Hns).
    exists inf, tr'. rewrite (records_nonSuccess _ HA) in Hips. done.
  - intros rp t4 t6 HA HNS Hk H4 H6.
    destruct (serve_completes w req d rp t4 t6 Hd Hne HA
                (completes_nonSuccess _ HNS) Hk H4 H6)
      as (inf & tr' & Hs & Hst & Hrun & Hips & Hns).
    exists inf, tr'. rewrite (records_nonSuccess _ HNS) in Hns. done.
  - intros rp t4 t6 HA HNS Hk H4 H6.
    destruct (serve_completes w req d rp t4 t6 Hd Hne
                (completes_nonSuccess _ HA) (completes_nonSuccess _ HNS)
                Hk H4 H6)
      as (inf & tr' & Hs & Hst & Hrun & Hips & Hns).
    exists inf, tr'.
    rewrite (records_nonSuccess _ HA) in Hips.
    rewrite (records_nonSuccess _ HNS) in Hns. done.
Qed.

(** The A lookup alone is answered with the status 503: the response is
    normal, [resolved_ips] is empty and [nameservers] is that of the NS
    answer. *)
Lemma dns_failure_resolverDownForA :
  exists inf tr',
    serve resolverDownForA (get " Example.COM ") = (Ok (report inf), tr')
    /\ responseStatus (report inf) = 200
    /\ analyse "example.com" resolverDownForA [] = (Ok inf, tr')
    /\ resolved_ips inf = []
    /\ nameservers inf
       = map nsName (records (answerNS resolverDownForA "example.com")).
Proof.
  refine (proj1 (proj2 (proj2 (proj2 (proj2 (proj2
            (dns_failure_gives_empty_lists resolverDownForA
               (get " Example.COM ") "example.com" _ _))))))
            {| status := 200; headers := ∅; text := Ok "";
               json_body := notJson |}
            ("173.245.48.0/20" +:+ LF +:+ "104.16.0.0/12" +:+ LF)
            ("2400:cb00::/32" +:+ LF +:+ "2606:4700::/32" +:+ LF)
            _ _ _ _ _).
  - vm_compute. reflexivity.
  - discriminate.
  - left. eexists. split; reflexivity.
  - eexists. split; [reflexivity |]. intros _. by eexists.
  - vm_compute. reflexivity.
  - vm_compute. reflexivity.
  - vm_compute. reflexivity.
Defined.

(** * Further properties of the code *)

(** ** [ipToInt] (lines 47-49) *)

Lemma parseInt_decimal s :
  isDecimal s = true ->
  parseInt s = Num (octetValue s) /\ 0 <= octetValue s < 2 ^ 52.
Proof.
  unfold isDecimal, octetValue, parseInt. rewrite andb_true_iff.
  intros [Hd Hv]. destruct (digitsValue s 0 false) as [v |] eqn:E; [| done].
  apply Z.ltb_lt in Hv.
  pose proof (digitsValue_nonneg _ _ _ _ (Z.le_refl 0) E) as Hpos.
  destruct s as [|c s]; [done |].
  simpl in Hd. apply andb_true_iff in Hd as [Hc _].
  apply digit_facts in Hc as (Hw & Hm & Hp & _).
  cbn [trimStart]. rewrite Hw, Hm, Hp, E.
  split; [| done]. unfold toDouble.
  assert ((Z.abs v <? 2 ^ 53) = true) as ->; [apply Z.ltb_lt; lia | done].
Qed.

Lemma step_decimal X v :
  0 <= v < 2 ^ 52 ->
  exists y, add (shl X (Num 8)) (Num v) = Num y
            /\ y mod 2 ^ 32 = (ToUint32 X * 256 + v) mod 2 ^ 32.
Proof.
  intros Hv. unfold shl, add.
  change (Z.land (ToUint32 (Num 8)) 31) with 8.
  set (z := wrap32 (Z.shiftl (ToInt32 X) 8)).
  pose proof (wrap32_bound (Z.shiftl (ToInt32 X) 8)) as Hz. fold z in Hz.
  exists (z + v). split.
  - unfold toDouble.
    assert ((Z.abs (z + v) <? 2 ^ 53) = true) as ->;
      [apply Z.ltb_lt; lia | done].
  - subst z. rewrite <- Z.add_mod_idemp_l by lia.
    rewrite wrap32_mod, Z.add_mod_idemp_l by lia.
    rewrite Z.shiftl_mul_pow2 by lia. change (2 ^ 8) with 256.
    assert (ToInt32 X mod 2 ^ 32 = ToUint32 X) as <-.
    { destruct X; try done. apply wrap32_mod. }
    symmetry. rewrite <- Z.add_mod_idemp_l by lia.
    rewrite Z.mul_mod_idemp_l by lia. by rewrite Z.add_mod_idemp_l by lia.
Qed.

Lemma fold_decimals l X x :
  forallb isDecimal l = true ->
  (exists y, X = Num y /\ y mod 2 ^ 32 = x mod 2 ^ 32) ->
  exists y,
    fold_left (fun acc oct => add (shl acc (Num 8)) (parseInt oct)) l X = Num y
    /\ y mod 2 ^ 32
       = fold_left (fun acc oct => acc * 256 + octetValue oct) l x mod 2 ^ 32.
Proof.
  revert X x. induction l as [|o l IH]; intros X x Hl HX; [done |].
  simpl in Hl. apply andb_true_iff in Hl as [Ho Hl].
  apply parseInt_decimal in Ho as [Hp Hv].
  cbn [fold_left]. rewrite Hp. apply IH; [done |].
  destruct (step_decimal X _ Hv) as [y [Hy Hm]]. exists y. split; [done |].
  rewrite Hm. destruct HX as [y0 [-> Hy0]]. cbn [ToUint32].
  rewrite <- Z.add_mod_idemp_l by lia. rewrite Z.mul_mod_idemp_l by lia.
  rewrite Z.add_mod_idemp_l by lia.
  rewrite <- (Z.add_mod_idemp_l (y0 * 256)) by lia.
  rewrite <- Z.mul_mod_idemp_l by lia. rewrite Hy0.
  rewrite Z.mul_mod_idemp_l by lia. by rewrite Z.add_mod_idemp_l by lia.
Qed.

(** X1.  On a valid dotted quad [a.b.c.d], [ipToInt] is the unsigned
    address [a*2^24 + b*2^16 + c*2^8 + d], also when the first part is 128
    or more and the signed shifts pass through negative numbers. *)
Theorem ipToInt_dotted_quad ip :
  valid_ipv4 ip = true ->
  exists a b c d,
    split "." ip = [a; b; c; d]
    /\ ipToInt ip
       = Num (octetValue a * 16777216 + octetValue b * 65536
              + octetValue c * 256 + octetValue d)
    /\ 0 <= octetValue a <= 255 /\ 0 <= octetValue b <= 255
    /\ 0 <= octetValue c <= 255 /\ 0 <= octetValue d <= 255.
Proof.
  intros Hv. destruct (ipToInt_valid _ Hv) as [-> _].
  revert Hv. unfold valid_ipv4, addressValue.
  destruct (split "." ip) as [|a [|b [|c [|d [|? ?]]]]]; try discriminate.
  rewrite !andb_true_iff. intros [[[Ha Hb] Hc] Hd].
  apply parseInt_octet in Ha as [_ Ha], Hb as [_ Hb], Hc as [_ Hc],
    Hd as [_ Hd].
  exists a, b, c, d. split; [done |]. split; [| done].
  cbn [fold_left]. f_equal. lia.
Qed.

Lemma ipToInt_dotted_quad_high :
  exists a b c d,
    split "." "203.0.113.7" = [a; b; c; d]
    /\ ipToInt "203.0.113.7"
       = Num (octetValue a * 16777216 + octetValue b * 65536
              + octetValue c * 256 + octetValue d)
    /\ 0 <= octetValue a <= 255 /\ 0 <= octetValue b <= 255
    /\ 0 <= octetValue c <= 255 /\ 0 <= octetValue d <= 255.
Proof. apply (ipToInt_dotted_quad "203.0.113.7"). reflexivity. Defined.

(** A part of 2^53 or more is first rounded to a double by [parseInt]: the
    value below is not the exact base-256 value (768) of the two parts. *)
Lemma ipToInt_rounds_large_part : ipToInt "9007199254740995.0" = Num 1024.
Proof. reflexivity. Qed.

(** X2.  Neither 255 nor four bound the parts or their number: on a text
    made of decimal parts separated by dots, each part below 2^52 (so that
    [parseInt] reads it exactly), [ipToInt] is the base-256 value of the
    parts reduced modulo 2^32, so a part above 255 carries into the part
    before it and parts beyond the fourth push the first ones out. *)
Theorem ipToInt_wraps ip :
  forallb isDecimal (split "." ip) = true ->
  ipToInt ip = Num (addressValue ip mod 2 ^ 32).
Proof.
  intros Hl. unfold ipToInt, addressValue.
  destruct (fold_decimals (split "." ip) (Num 0) 0 Hl) as [y [Hy Hm]];
    [by exists 0 |].
  rewrite Hy. unfold ushr.
  change (Z.land (ToUint32 (Num 0)) 31) with 0. rewrite Z.shiftr_0_r.
  cbn [ToUint32]. by rewrite Hm.
Qed.

Lemma ipToInt_wraps_carry :
  ipToInt "1.2.3.256" = Num (addressValue "1.2.3.256" mod 2 ^ 32).
Proof. apply (ipToInt_wraps "1.2.3.256"). reflexivity. Defined.

#[local] Arguments String.append !_ _ / : simpl nomatch.

Lemma split_app_general sep a r :
  split sep (a +:+ String sep r) = split sep a ++ split sep r.
Proof.
  induction a as [|c a IH]; simpl.
  - by rewrite char_eqb_refl.
  - destruct (char_eqb c sep); [by rewrite IH |].
    rewrite IH. destruct (split sep a) as [|p ps] eqn:E; [| done].
    by destruct (split_nonempty sep a).
Qed.

Lemma split_no_sep sep j :
  allChars (fun c => negb (char_eqb c sep)) j = true -> split sep j = [j].
Proof.
  induction j as [|c j IH]; [done |]. simpl.
  rewrite andb_true_iff, negb_true_iff. intros [-> Hj]. by rewrite IH.
Qed.

Lemma fold_from_NaN l :
  l <> [] ->
  fold_left (fun acc oct => add (shl acc (Num 8)) (parseInt oct)) l NaN
  = fold_left (fun acc oct => add (shl acc (Num 8)) (parseInt oct)) l (Num 0).
Proof. by destruct l. Qed.

(** X3.  A part that is not a number is not rejected: it makes the
    accumulator NaN, which the next shift reads as 0, so everything before
    and including that part is forgotten and [ipToInt] is that of the text
    after it. *)
Theorem ipToInt_forgets_before_junk a j b :
  parseInt j = NaN ->
  allChars (fun c => negb (char_eqb c ".")) j = true ->
  ipToInt (a +:+ "." +:+ j +:+ "." +:+ b) = ipToInt b.
Proof.
  intros Hj Hdot. unfold ipToInt. f_equal.
  change (a +:+ "." +:+ j +:+ "." +:+ b)
    with (a +:+ String "." (j +:+ String "." b)).
  rewrite split_app_general, split_app_sep by done.
  rewrite fold_left_app. cbn [fold_left]. rewrite Hj.
  assert (forall X, add X NaN = NaN) as -> by (by intros [| |]).
  apply fold_from_NaN, split_nonempty.
Qed.

Lemma ipToInt_forgets_example :
  ipToInt ("10.0" +:+ "." +:+ "x1" +:+ "." +:+ "3.4") = ipToInt "3.4".
Proof. apply (ipToInt_forgets_before_junk "10.0" "x1" "3.4"); reflexivity. Defined.

(** ** [cidrContains] (lines 50-57) *)

Lemma indexOfFrom_present i s c :
  0 <= i -> includes s (str1 c) = true -> indexOfFrom i s c <> -1.
Proof.
  unfold str1. revert i. induction s as [|a s IH]; intros i Hi; [done |].
  cbn [includes startsWith indexOfFrom]. rewrite andb_true_r.
  destruct (char_eqb a c); [intros _; lia |].
  cbn [orb]. apply IH. lia.
Qed.

Lemma cidrContains_skips_ipv6_general cidr ip :
  (exists p q, cidr = p +:+ ":" +:+ q) -> cidrContains cidr ip = false.
Proof.
  intros H. apply includes_spec in H. unfold cidrContains, indexOf.
  pose proof (indexOfFrom_present 0 cidr ":" (Z.le_refl 0) H) as Hne.
  apply Z.eqb_neq in Hne. by rewrite Hne.
Qed.

(** X4.  A range entry that contains a colon matches no address at all:
    IPv6 ranges are skipped, whatever the candidate is. *)
Theorem cidrContains_skips_ipv6 cidr ip :
  (exists p q, cidr = p +:+ ":" +:+ q) -> cidrContains cidr ip = false.
Proof. apply cidrContains_skips_ipv6_general. Qed.

Lemma cidrContains_skips_ipv6_example :
  cidrContains "2606:4700::/32" "104.16.1.1" = false.
Proof.
  apply (cidrContains_skips_ipv6 "2606:4700::/32" "104.16.1.1").
  exists "2606", "4700::/32". reflexivity.
Defined.

(** The test on a range written [net/m], when neither part has a colon or
    a slash. *)
Lemma cidrContains_parts net m ip :
  allChars (fun c => negb (char_eqb c ":")) net = true ->
  allChars (fun c => negb (char_eqb c "/")) net = true ->
  allChars (fun c => negb (char_eqb c ":")) m = true ->
  allChars (fun c => negb (char_eqb c "/")) m = true ->
  cidrContains (net +:+ "/" +:+ m) ip =
  let maskInt :=
    match m with
    | EmptyString => Num 0
    | _ => ushr (shl (bnot (Num 0)) (sub (Num 32) (parseInt m))) (Num 0)
    end in
  strictEq (band (ipToInt net) maskInt) (band (ipToInt ip) maskInt).
Proof.
  intros Hc Hs Hmc Hms. unfold cidrContains, indexOf.
  rewrite indexOfFrom_absent.
  2:{ rewrite allChars_app, Hc. simpl. by rewrite Hmc. }
  change (negb (-1 =? -1)) with false. cbv iota.
  change (net +:+ "/" +:+ m) with (net +:+ String "/" m).
  rewrite split_app_sep, split_no_sep by done.
  cbv zeta. change (nth_error [net; m] 1) with (Some m).
  change (nth 0 [net; m] "") with net. by destruct m.
Qed.

Lemma valid_ipv4_no_colon ip :
  valid_ipv4 ip = true ->
  allChars (fun c => negb (char_eqb c ":")) ip = true
  /\ allChars (fun c => negb (char_eqb c "/")) ip = true.
Proof.
  intros H. apply valid_ipv4_chars in H.
  split; (eapply allChars_impl; [| exact H]); intros c Hc;
    by apply digit_or_dot in Hc as [? ?].
Qed.

Lemma digits_no_colon m :
  allChars isDigit m = true ->
  allChars (fun c => negb (char_eqb c ":")) m = true
  /\ allChars (fun c => negb (char_eqb c "/")) m = true.
Proof.
  intros H.
  split; (eapply allChars_impl; [| exact H]); intros c Hc;
    (assert (Hd : isDigit c || char_eqb c "." = true) by (by rewrite Hc));
    by apply digit_or_dot in Hd as [? ?].
Qed.

(** X5.  A range whose prefix text is empty, [net/], contains every
    candidate, whatever its text. *)
Theorem cidrContains_empty_prefix net ip :
  valid_ipv4 net = true -> cidrContains (net +:+ "/") ip = true.
Proof.
  intros Hv. apply valid_ipv4_no_colon in Hv as [Hc Hs].
  change (net +:+ "/") with (net +:+ "/" +:+ "").
  rewrite cidrContains_parts by done. cbv zeta iota.
  unfold band, strictEq. by rewrite !Z.land_0_r.
Qed.

Lemma cidrContains_empty_prefix_example :
  cidrContains ("104.16.0.0" +:+ "/") "not an address" = true.
Proof. apply (cidrContains_empty_prefix "104.16.0.0"). reflexivity. Defined.

Lemma wrap32_congr a b : a mod 2 ^ 32 = b mod 2 ^ 32 -> wrap32 a = wrap32 b.
Proof.
  intros H. unfold wrap32. f_equal.
  rewrite <- (Z.add_mod_idemp_l a), <- (Z.add_mod_idemp_l b) by lia.
  by rewrite H.
Qed.

Lemma wrap32_small z : - 2 ^ 31 <= z < 2 ^ 31 -> wrap32 z = z.
Proof. intros H. unfold wrap32. rewrite Z.mod_small; lia. Qed.

Lemma pow2_le_31 k : 0 <= k <= 31 -> 1 <= 2 ^ k <= 2 ^ 31.
Proof.
  intros H. split.
  - pose proof (Z.pow_pos_nonneg 2 k). lia.
  - apply Z.pow_le_mono_r; lia.
Qed.

(** The mask for a shift count between 0 and 31: the bits from [k] up. *)
Lemma mask_value k :
  0 <= k <= 31 ->
  ushr (shl (bnot (Num 0)) (Num k)) (Num 0) = Num (2 ^ 32 - 2 ^ k).
Proof.
  intros Hk. pose proof (pow2_le_31 k Hk) as Hp.
  unfold ushr, shl, bnot.
  change (ToInt32 (Num 0)) with 0. change (Z.lnot 0) with (-1).
  change (ToInt32 (Num (-1))) with (-1).
  change (Z.land (ToUint32 (Num 0)) 31) with 0. rewrite Z.shiftr_0_r.
  cbn [ToUint32]. rewrite (Z.mod_small k) by lia.
  change 31 with (Z.ones 5) at 1. rewrite Z.land_ones by lia.
  rewrite (Z.mod_small k) by (change (2 ^ 5) with 32; lia).
  rewrite Z.shiftl_mul_pow2 by lia.
  rewrite wrap32_small by lia. f_equal.
  symmetry. apply (Z.mod_unique_pos _ _ (-1)); lia.
Qed.

Lemma land_clear_low x k : 0 <= k -> Z.land x (- 2 ^ k) = x / 2 ^ k * 2 ^ k.
Proof.
  intros Hk.
  assert (- 2 ^ k = Z.lnot (Z.ones k)) as ->.
  { unfold Z.lnot. rewrite Z.ones_equiv. lia. }
  rewrite <- Z.ldiff_land, Z.ldiff_ones_r by done.
  by rewrite Z.shiftr_div_pow2, Z.shiftl_mul_pow2.
Qed.

Lemma band_mask u k :
  0 <= u < 2 ^ 32 -> 0 <= k <= 31 ->
  band (Num u) (Num (2 ^ 32 - 2 ^ k)) = Num (wrap32 (u / 2 ^ k * 2 ^ k)).
Proof.
  intros Hu Hk. pose proof (pow2_le_31 k Hk) as Hp.
  unfold band. cbn [ToInt32]. f_equal.
  assert (wrap32 (2 ^ 32 - 2 ^ k) = - 2 ^ k) as ->.
  { rewrite (wrap32_congr _ (- 2 ^ k)); [apply wrap32_small; lia |].
    replace (2 ^ 32 - 2 ^ k) with (- 2 ^ k + 1 * 2 ^ 32) by lia.
    apply Z.mod_add. lia. }
  rewrite land_clear_low by lia. apply wrap32_congr.
  set (x := wrap32 u).
  assert (Hx : x = u + x / 2 ^ 32 * 2 ^ (32 - k) * 2 ^ k).
  { rewrite <- Z.mul_assoc, <- Z.pow_add_r by lia.
    replace (32 - k + k) with 32 by lia.
    pose proof (Z.div_mod x (2 ^ 32)) as Hd.
    assert (Hm : x mod 2 ^ 32 = u).
    { subst x. rewrite wrap32_mod. apply Z.mod_small. lia. }
    lia. }
  rewrite Hx at 1. rewrite Z.div_add by lia.
  rewrite Z.mul_add_distr_r, <- Z.mul_assoc, <- Z.pow_add_r by lia.
  replace (32 - k + k) with 32 by lia. apply Z.mod_add. lia.
Qed.

Lemma masked_eq u u' k :
  0 <= u < 2 ^ 32 -> 0 <= u' < 2 ^ 32 -> 0 <= k <= 31 ->
  strictEq (band (Num u) (Num (2 ^ 32 - 2 ^ k)))
           (band (Num u') (Num (2 ^ 32 - 2 ^ k))) = true
  <-> u / 2 ^ k = u' / 2 ^ k.
Proof.
  intros Hu Hu' Hk. pose proof (pow2_le_31 k Hk) as Hp.
  rewrite !band_mask by done. unfold strictEq. rewrite Z.eqb_eq.
  assert (Hb : forall v, 0 <= v < 2 ^ 32 -> 0 <= v / 2 ^ k * 2 ^ k < 2 ^ 32).
  { intros v Hv. pose proof (Z.mul_div_le v (2 ^ k)).
    pose proof (Z.div_pos v (2 ^ k)). nia. }
  split.
  - intros H. apply wrap32_inj in H; [| by apply Hb ..].
    apply Z.mul_cancel_r in H; lia.
  - by intros ->.
Qed.

(** X6.  For a prefix length from 1 to 32 the test is the CIDR one: a
    valid dotted quad is contained in [net/len] exactly when its address
    and the network's agree on their [len] leading bits. *)
Theorem cidrContains_prefix net m ip :
  valid_ipv4 net = true ->
  valid_ipv4 ip = true ->
  isOctet m = true ->
  1 <= octetValue m <= 32 ->
  cidrContains (net +:+ "/" +:+ m) ip = true
  <-> addressValue net / 2 ^ (32 - octetValue m)
      = addressValue ip / 2 ^ (32 - octetValue m).
Proof.
  intros Hn Hi Hm Hlen.
  destruct (ipToInt_valid _ Hn) as [En Rn].
  destruct (ipToInt_valid _ Hi) as [Ei Ri].
  destruct (valid_ipv4_no_colon _ Hn) as [Hc Hs].
  assert (Hd : allChars isDigit m = true).
  { unfold isOctet in Hm. by apply andb_true_iff in Hm as [? _]. }
  destruct (digits_no_colon _ Hd) as [Hmc Hms].
  rewrite cidrContains_parts by done. cbv zeta.
  destruct (parseInt_octet _ Hm) as [Hp _].
  destruct m as [|c m]; [done |].
  rewrite Hp, En, Ei.
  assert (sub (Num 32) (Num (octetValue (String c m)))
          = Num (32 - octetValue (String c m))) as ->.
  { unfold sub, neg, add, toDouble.
    assert ((Z.abs (32 + - octetValue (String c m)) <? 2 ^ 53) = true) as ->;
      [apply Z.ltb_lt; lia | f_equal; lia]. }
  rewrite mask_value by lia. apply masked_eq; lia.
Qed.

Lemma cidrContains_prefix_example :
  cidrContains ("104.16.0.0" +:+ "/" +:+ "12") "104.31.255.7" = true
  <-> addressValue "104.16.0.0" / 2 ^ (32 - octetValue "12")
      = addressValue "104.31.255.7" / 2 ^ (32 - octetValue "12").
Proof.
  apply (cidrContains_prefix "104.16.0.0" "12" "104.31.255.7");
    [reflexivity | reflexivity | reflexivity | vm_compute; split; discriminate].
Defined.

(** X7.  A range entry without a slash is read as a single address: the
    missing prefix length parses as NaN, the shift count becomes 0 and the
    mask has every bit set. *)
Theorem cidrContains_no_slash net ip :
  valid_ipv4 net = true ->
  valid_ipv4 ip = true ->
  cidrContains net ip = true <-> addressValue net = addressValue ip.
Proof.
  intros Hn Hi.
  destruct (ipToInt_valid _ Hn) as [En Rn].
  destruct (ipToInt_valid _ Hi) as [Ei Ri].
  destruct (valid_ipv4_no_colon _ Hn) as [Hc Hs].
  unfold cidrContains, indexOf. rewrite indexOfFrom_absent by done.
  change (negb (-1 =? -1)) with false. cbv iota.
  rewrite split_no_sep by done. cbv zeta.
  change (nth_error [net] 1) with (@None string).
  change (nth 0 [net] "") with net. cbv iota.
  change (ushr (shl (bnot (Num 0)) (sub (Num 32) (parseInt (ToString None))))
               (Num 0)) with (Num 4294967295).
  rewrite En, Ei, !band_full. unfold strictEq. rewrite Z.eqb_eq. split.
  - by apply wrap32_inj.
  - by intros ->.
Qed.

Lemma cidrContains_no_slash_example :
  cidrContains "104.16.1.1" "104.16.1.1" = true
  <-> addressValue "104.16.1.1" = addressValue "104.16.1.1".
Proof.
  apply (cidrContains_no_slash "104.16.1.1" "104.16.1.1"); reflexivity.
Defined.

(** ** The range lists (line 44) *)

Lemma cfRangesOf_app a b : cfRangesOf a b = cfRangesOf a "" ++ cfRangesOf "" b.
Proof.
  unfold cfRangesOf. rewrite !List.filter_app. simpl. by rewrite app_nil_r.
Qed.

Lemma splitLines_line l rest :
  allChars (fun c => negb (code c =? 10) && negb (code c =? 13)) l = true ->
  splitLines (l +:+ LF +:+ rest) = l :: splitLines rest
  /\ splitLines (l +:+ CRLF +:+ rest) = l :: splitLines rest.
Proof.
  induction l as [|c l IH].
  - intros _. split; reflexivity.
  - cbn [allChars]. rewrite !andb_true_iff, !negb_true_iff.
    intros [[H10 H13] Hl]. destruct (IH Hl) as [IH1 IH2].
    change (String c l +:+ LF +:+ rest) with (String c (l +:+ LF +:+ rest)).
    change (String c l +:+ CRLF +:+ rest) with (String c (l +:+ CRLF +:+ rest)).
    cbn [splitLines]. by rewrite H10, H13, IH1, IH2.
Qed.

Lemma splitLines_terminated ls :
  forallb isEntry ls = true ->
  splitLines (terminated LF ls) = ls ++ [""]
  /\ splitLines (terminated CRLF ls) = ls ++ [""].
Proof.
  induction ls as [|e ls IH]; [done |].
  cbn [forallb]. unfold isEntry at 1. rewrite !andb_true_iff.
  intros [[_ He] Hls]. destruct (IH Hls) as [IH1 IH2].
  cbn [terminated]. destruct (splitLines_line e (terminated LF ls) He) as [-> _].
  destruct (splitLines_line e (terminated CRLF ls) He) as [_ ->].
  by rewrite IH1, IH2.
Qed.

Lemma filter_entries ls :
  forallb isEntry ls = true ->
  List.filter (fun l => negb (String.eqb l "")) ls = ls.
Proof.
  induction ls as [|e ls IH]; [done |].
  cbn [forallb List.filter]. unfold isEntry at 1. rewrite !andb_true_iff.
  intros [[-> _] Hls]. by rewrite IH.
Qed.

(** X8.  The two fetched texts are read back as their entries: when the
    first list ends its lines with LF and the second with CR LF, the ranges
    are the entries of the first followed by those of the second, with no
    empty entry from the final line ending. *)
Theorem cfRanges_round_trip v4 v6 :
  forallb isEntry v4 = true ->
  forallb isEntry v6 = true ->
  cfRangesOf (terminated LF v4) (terminated CRLF v6) = v4 ++ v6.
Proof.
  intros H4 H6. unfold cfRangesOf.
  destruct (splitLines_terminated v4 H4) as [-> _].
  destruct (splitLines_terminated v6 H6) as [_ ->].
  rewrite !List.filter_app, (filter_entries v4 H4), (filter_entries v6 H6).
  simpl. by rewrite !app_nil_r.
Qed.

Lemma cfRanges_round_trip_example :
  cfRangesOf (terminated LF ["173.245.48.0/20"; "104.16.0.0/12"])
             (terminated CRLF ["2400:cb00::/32"])
  = ["173.245.48.0/20"; "104.16.0.0/12"] ++ ["2400:cb00::/32"].
Proof.
  apply (cfRanges_round_trip ["173.245.48.0/20"; "104.16.0.0/12"]
                             ["2400:cb00::/32"]); reflexivity.
Defined.

Lemma splitLines_no_LF s :
  Forall (fun l => allChars (fun c => negb (code c =? 10)) l = true)
         (splitLines s).
Proof.
  induction s as [|a s IH]; [by repeat constructor |].
  cbn [splitLines].
  assert (Hkeep : (code a =? 10) = false ->
            Forall (fun l => allChars (fun c => negb (code c =? 10)) l = true)
              match splitLines s with
              | [] => [str1 a]
              | p :: ps => String a p :: ps
              end).
  { intros Ha. destruct (splitLines s) as [|p ps].
    - constructor; [| constructor]. simpl. by rewrite Ha.
    - inversion IH as [|? ? Hp Hps]; subst. constructor; [| done].
      simpl. by rewrite Ha, Hp. }
  destruct (code a =? 10) eqn:Ha; [by constructor |].
  destruct (code a =? 13); [| by apply Hkeep].
  destruct s as [|b s']; [by apply Hkeep |].
  destruct (code b =? 10) eqn:Hb; [| by apply Hkeep].
  cbn [splitLines] in IH. rewrite Hb in IH.
  inversion IH; subst. by constructor.
Qed.

(** X9.  Whatever the two texts are, no range entry is empty and none
    contains a line feed, and the entries of the first text come before
    those of the second. *)
Theorem cfRanges_entries a b :
  Forall (fun l => l <> "" /\ allChars (fun c => negb (code c =? 10)) l = true)
         (cfRangesOf a b)
  /\ cfRangesOf a b = cfRangesOf a "" ++ cfRangesOf "" b.
Proof.
  split; [| apply cfRangesOf_app].
  unfold cfRangesOf. apply Forall_forall. intros l Hl.
  apply filter_elem_of in Hl as [Hin Hne].
  apply negb_true_iff, String.eqb_neq in Hne. split; [done |].
  apply list_elem_of_In, in_app_or in Hin.
  pose proof (splitLines_no_LF a) as Ha. pose proof (splitLines_no_LF b) as Hb.
  rewrite Forall_forall in Ha, Hb.
  destruct Hin as [Hin | Hin]; [apply Ha | apply Hb]; by apply list_elem_of_In.
Qed.

(** X10.  The IPv6 list never changes the result: when every entry of the
    second text contains a colon, the addresses found in the ranges are
    those found with the first text alone. *)
Theorem ipv6_list_is_inert ipv4 cfV4txt cfV6txt :
  forallb (fun l => includes l ":") (cfRangesOf "" cfV6txt) = true ->
  ipsBehindCFOf ipv4 (cfRangesOf cfV4txt cfV6txt)
  = ipsBehindCFOf ipv4 (cfRangesOf cfV4txt "").
Proof.
  intros H6. rewrite cfRangesOf_app. unfold ipsBehindCFOf.
  apply List.filter_ext. intros ip. rewrite existsb_app.
  assert (existsb (fun r => cidrContains r ip) (cfRangesOf "" cfV6txt) = false)
    as ->; [| by rewrite orb_false_r].
  apply not_true_is_false. intros He.
  apply existsb_exists in He as [r [Hr Hc]].
  rewrite forallb_forall in H6. specialize (H6 r Hr).
  apply includes_spec in H6.
  by rewrite (cidrContains_skips_ipv6_general r ip H6) in Hc.
Qed.

Lemma ipv6_list_is_inert_example :
  ipsBehindCFOf ["104.16.1.1"; "93.184.216.34"]
    (cfRangesOf (terminated LF ["104.16.0.0/12"])
                (terminated LF ["2400:cb00::/32"; "2606:4700::/32"]))
  = ipsBehindCFOf ["104.16.1.1"; "93.184.216.34"]
      (cfRangesOf (terminated LF ["104.16.0.0/12"]) "").
Proof.
  apply (ipv6_list_is_inert ["104.16.1.1"; "93.184.216.34"]
           (terminated LF ["104.16.0.0/12"])
           (terminated LF ["2400:cb00::/32"; "2606:4700::/32"])).
  reflexivity.
Defined.

(** ** The domain (line 5) *)

(** X11.  A non-empty [domain] query parameter decides the domain,
    whatever the body holds; the body is not consulted. *)
Theorem query_parameter_wins req s :
  searchParams_get "domain" (searchParams req) = Some s ->
  s <> "" ->
  extractDomain req = Ok (toLowerCase (trim s))
  /\ forall b,
       extractDomain {| searchParams := searchParams req; body := b |}
       = extractDomain req.
Proof.
  intros Hq Hs. apply String.eqb_neq in Hs.
  unfold extractDomain, rawDomain. cbn [searchParams].
  rewrite Hq. simpl. by rewrite Hs.
Qed.

Lemma query_parameter_wins_example :
  extractDomain {| searchParams := [("domain", " Example.COM ")];
                   body := Some (JObj [("domain", JStr "other.example")]) |}
  = Ok (toLowerCase (trim " Example.COM ")).
Proof.
  refine (proj1 (query_parameter_wins
            {| searchParams := [("domain", " Example.COM ")];
               body := Some (JObj [("domain", JStr "other.example")]) |}
            " Example.COM " _ _)); [reflexivity | discriminate].
Defined.

(** X12.  A [domain] query parameter that is present but empty counts as
    absent: the domain is then the one the body gives. *)
Theorem empty_parameter_falls_through req :
  searchParams_get "domain" (searchParams req) = Some "" ->
  extractDomain req = extractDomain {| searchParams := []; body := body req |}.
Proof.
  intros Hq. unfold extractDomain, rawDomain. cbn [searchParams body].
  by rewrite Hq.
Qed.

Lemma empty_parameter_falls_through_example :
  extractDomain {| searchParams := [("domain", "")];
                   body := Some (JObj [("domain", JStr "a.example")]) |}
  = extractDomain {| searchParams := [];
                     body := Some (JObj [("domain", JStr "a.example")]) |}.
Proof.
  apply (empty_parameter_falls_through
           {| searchParams := [("domain", "")];
              body := Some (JObj [("domain", JStr "a.example")]) |}).
  reflexivity.
Defined.

(** X13.  A [domain] field of the body that is truthy but no string (a
    number other than 0, [true], an array, an object) is not answered with
    the status 400: the handler throws a TypeError at [.trim()], before any
    outbound call. *)
Theorem non_string_domain_throws w req fields v :
  searchParams_get "domain" (searchParams req) = None ->
  body req = Some (JObj fields) ->
  getField "domain" fields = Some v ->
  truthy (Some v) = true ->
  (forall s, v <> JStr s) ->
  serve w req
  = (Throw (TypeError "(intermediate value).trim is not a function"), []).
Proof.
  intros Hq Hb Hf Ht Hv. unfold serve. rewrite onRequest_eq.
  unfold extractDomain, rawDomain, bodyDomain. rewrite Hq, Hb, Hf.
  destruct v as [| b | z | s | l | fs]; simpl in Ht |- *;
    try rewrite Ht; try done.
  by destruct (Hv s).
Qed.

Lemma non_string_domain_throws_example :
  serve deadDomain (post (JObj [("domain", JNum 5)]))
  = (Throw (TypeError "(intermediate value).trim is not a function"), []).
Proof.
  apply (non_string_domain_throws deadDomain _ [("domain", JNum 5)] (JNum 5));
    try reflexivity.
  discriminate.
Defined.

Lemma lowerChar_idem c : lowerChar (lowerChar c) = lowerChar c.
Proof. by destruct c as [[] [] [] [] [] [] [] []]. Qed.

Lemma isWhite_lower c : isWhite (lowerChar c) = isWhite c.
Proof. by destruct c as [[] [] [] [] [] [] [] []]. Qed.

Lemma toLowerCase_idem s : toLowerCase (toLowerCase s) = toLowerCase s.
Proof.
  induction s as [|c s IH]; [done |]. simpl. by rewrite lowerChar_idem, IH.
Qed.

Lemma trimStart_lower s : trimStart (toLowerCase s) = toLowerCase (trimStart s).
Proof.
  induction s as [|c s IH]; [done |]. simpl. rewrite isWhite_lower.
  by destruct (isWhite c).
Qed.

Lemma trimEnd_lower s : trimEnd (toLowerCase s) = toLowerCase (trimEnd s).
Proof.
  induction s as [|c s IH]; [done |]. simpl. rewrite IH, isWhite_lower.
  destruct (trimEnd s); simpl; [by destruct (isWhite c) | done].
Qed.

Lemma trimStart_idem s : trimStart (trimStart s) = trimStart s.
Proof.
  induction s as [|c s IH]; [done |]. simpl.
  destruct (isWhite c) eqn:E; [done |]. simpl. by rewrite E.
Qed.

Lemma trimEnd_idem s : trimEnd (trimEnd s) = trimEnd s.
Proof.
  induction s as [|c s IH]; [done |]. simpl.
  destruct (trimEnd s) as [|d r] eqn:E.
  - destruct (isWhite c) eqn:Ec; [done |]. simpl. by rewrite Ec.
  - cbn [trimEnd]. cbn [trimEnd] in IH. by rewrite IH.
Qed.

Lemma trim_comm s : trimStart (trimEnd s) = trimEnd (trimStart s).
Proof.
  induction s as [|c s IH]; [done |]. cbn [trimStart trimEnd].
  destruct (isWhite c) eqn:Ec.
  - destruct (trimEnd s) as [|d r] eqn:E; [by rewrite <- IH |].
    cbn [trimStart]. by rewrite Ec.
  - cbn [trimEnd]. destruct (trimEnd s) as [|d r] eqn:E;
      unfold str1; cbn [trimStart]; by rewrite Ec.
Qed.

Lemma trim_idem s : trim (trim s) = trim s.
Proof.
  unfold trim. by rewrite <- trim_comm, trimEnd_idem, trim_comm, trimStart_idem.
Qed.

Lemma trim_lower s : trim (toLowerCase s) = toLowerCase (trim s).
Proof. unfold trim. by rewrite trimStart_lower, trimEnd_lower. Qed.

(** X14.  The domain the handler works with, and reports in the inference,
    is trimmed and in lower case: trimming it or lowering its case again
    changes nothing. *)
Theorem domain_is_normalised req d w inf tr' :
  extractDomain req = Ok d ->
  analyse d w [] = (Ok inf, tr') ->
  domain inf = d /\ trim d = d /\ toLowerCase d = d.
Proof.
  intros Hd H. of_run H. split; [done |].
  unfold extractDomain in Hd.
  destruct (rawDomain req) as [[| | | s | |] |]; try discriminate.
  injection Hd as <-. split.
  - by rewrite trim_lower, trim_idem.
  - apply toLowerCase_idem.
Qed.

Lemma domain_is_normalised_example :
  domain headerOnlyInference = "example.com"
  /\ trim "example.com" = "example.com"
  /\ toLowerCase "example.com" = "example.com".
Proof.
  refine (domain_is_normalised (get "  Example.COM ") "example.com" headerOnly
            headerOnlyInference
            (probeTrace headerOnly "example.com" ++ [callV4; callV6]) _ _);
    vm_compute; reflexivity.
Defined.

(** ** The run as a whole (lines 16-78) *)

(** X15.  The outbound calls of a run are made in one fixed order (the A
    lookup, the NS lookup, the probe attempts, the IPv4 list, the IPv6
    list) and stop at the first step that throws: the calls made are an
    initial part of that sequence, which starts with the A lookup, and a
    run that returns an inference has made all of them, five or six. *)
Theorem calls_in_order d w out tr' :
  analyse d w [] = (out, tr') ->
  (exists rest, probeTrace w d ++ [callV4; callV6] = tr' ++ rest)
  /\ (exists more, tr' = callA d :: more)
  /\ (forall inf, out = Ok inf -> tr' = probeTrace w d ++ [callV4; callV6])
  /\ (5 <= length (probeTrace w d ++ [callV4; callV6]) <= 6)%nat.
Proof.
  rewrite analyse_outcome. intros H.
  assert (Hlen : (5 <= length (probeTrace w d ++ [callV4; callV6]) <= 6)%nat).
  { unfold probeTrace. destruct (probe_ok _); simpl; lia. }
  assert (Hfull : exists more,
            probeTrace w d ++ [callV4; callV6] = callA d :: more).
  { unfold probeTrace. by eexists. }
  assert (Hpt : probeTrace w d
                = callA d :: callNS d :: callHttps d
                    :: (if probe_ok (attempt (firstProbe w d))
                        then [] else [callHttp d])) by done.
  destruct (lookup (answerA w d)) as [aJson | e].
  2:{ apply pair_equal_spec in H as [<- <-]. split; [| split; [| split; [| exact Hlen]]].
      - rewrite Hpt. by eexists.
      - by exists [].
      - done. }
  destruct (lookup (answerNS w d)) as [nsJson | e].
  2:{ apply pair_equal_spec in H as [<- <-]. split; [| split; [| split; [| exact Hlen]]].
      - rewrite Hpt. by eexists.
      - by eexists.
      - done. }
  destruct (fetchedText (answerV4 w d)) as [t4 | e].
  2:{ apply pair_equal_spec in H as [<- <-]. split; [| split; [| split; [| exact Hlen]]].
      - exists [callV6]. by rewrite <- app_assoc.
      - rewrite Hpt. by eexists.
      - done. }
  destruct (fetchedText (answerV6 w d)) as [t6 | e].
  2:{ apply pair_equal_spec in H as [<- <-]. split; [| split; [| split; [| exact Hlen]]].
      - exists []. by rewrite app_nil_r.
      - exact Hfull.
      - done. }
  apply pair_equal_spec in H as [<- <-]. split; [| split; [| split; [| exact Hlen]]].
  - exists []. by rewrite app_nil_r.
  - exact Hfull.
  - done.
Qed.

Lemma calls_in_order_example :
  exists rest,
    probeTrace resolverGarbled "example.com" ++ [callV4; callV6]
    = [callA "example.com"] ++ rest.
Proof.
  refine (proj1 (calls_in_order "example.com" resolverGarbled
            (Throw (Rejected "SyntaxError: Unexpected end of JSON input"))
            [callA "example.com"] _)).
  vm_compute. reflexivity.
Defined.

(** X16.  A failure of the resolver other than a status is not caught: when
    the call of the A lookup is rejected, or its response has a success
    status and a body that is not JSON, the request throws that error after
    this one call; no probe is attempted and no range list is fetched. *)
Theorem resolver_failure_aborts w req d e :
  extractDomain req = Ok d ->
  d <> "" ->
  answerA w d = Throw e
  \/ (exists r, answerA w d = Ok r /\ ok r = true /\ json_body r = Throw e) ->
  serve w req = (Throw e, [callA d]).
Proof.
  intros Hd Hne Ho. unfold serve. rewrite onRequest_eq, Hd.
  apply String.eqb_neq in Hne. rewrite Hne, analyse_outcome.
  assert (lookup (answerA w d) = Throw e) as ->; [| done].
  destruct Ho as [-> | (r & -> & Hok & Hj)]; [done |].
  simpl. by rewrite Hok, Hj.
Qed.

Lemma resolver_failure_aborts_example :
  serve resolverGarbled (get "example.com")
  = (Throw (Rejected "SyntaxError: Unexpected end of JSON input"),
     [callA "example.com"]).
Proof.
  apply (resolver_failure_aborts resolverGarbled (get "example.com")
           "example.com"); [reflexivity | discriminate |].
  right. eexists. split; [reflexivity |]. split; reflexivity.
Defined.

(** X17.  A failure to fetch or read the IPv4 range list is not caught
    either: when both lookups complete, the request throws that error once
    the probe is over, the IPv6 list is not fetched, and this is so also
    when both probe attempts had failed. *)
Theorem range_failure_aborts w req d e :
  extractDomain req = Ok d ->
  d <> "" ->
  lookupCompletes (answerA w d) ->
  lookupCompletes (answerNS w d) ->
  fetchedText (answerV4 w d) = Throw e ->
  serve w req = (Throw e, probeTrace w d ++ [callV4]).
Proof.
  intros Hd Hne HA HNS H4. unfold serve. rewrite onRequest_eq, Hd.
  apply String.eqb_neq in Hne. rewrite Hne, analyse_outcome.
  destruct (doh_completes _ HA) as [aJson ->].
  destruct (doh_completes _ HNS) as [nsJson ->].
  by rewrite H4.
Qed.

Lemma range_failure_aborts_example :
  serve resolverDownNoRanges (get "example.com")
  = (Throw (Rejected "TypeError: fetch failed"),
     probeTrace resolverDownNoRanges "example.com" ++ [callV4]).
Proof.
  apply (range_failure_aborts resolverDownNoRanges (get "example.com")
           "example.com"); [reflexivity | discriminate | | | reflexivity].
  - eexists. split; [reflexivity |]. discriminate.
  - eexists. split; [reflexivity |]. discriminate.
Defined.

(** X18.  The status of the range list responses is never looked at: when
    both are answered with a status that is no success, the run still
    returns an inference, and the ranges it tests the addresses against
    are the lines of the two bodies. *)
Theorem range_status_is_ignored w d rp r4 r6 t4 t6 :
  lookupCompletes (answerA w d) ->
  lookupCompletes (answerNS w d) ->
  keptProbe w d = Ok rp ->
  answerV4 w d = Ok r4 -> ok r4 = false -> text r4 = Ok t4 ->
  answerV6 w d = Ok r6 -> ok r6 = false -> text r6 = Ok t6 ->
  exists inf tr',
    analyse d w [] = (Ok inf, tr')
    /\ ips_in_cloudflare_ranges inf
       = ipsBehindCFOf (resolved_ips inf) (cfRangesOf t4 t6).
Proof.
  intros HA HNS Hk H4 _ Ht4 H6 _ Ht6. rewrite analyse_outcome.
  destruct (doh_completes _ HA) as [aJson ->].
  destruct (doh_completes _ HNS) as [nsJson ->].
  unfold fetchedText. rewrite H4, Ht4, H6, Ht6.
  assert (keptAttempt w d = ProbeOk (status rp) (collect (headers rp))) as ->.
  { revert Hk. unfold keptProbe, keptAttempt.
    destruct (firstProbe w d) as [r1 | e1]; simpl; [by intros [= ->] |].
    by intros ->. }
  unfold conclude. simpl. by eexists _, _.
Qed.

Lemma range_status_is_ignored_example :
  exists inf tr',
    analyse "example.com" rangesDown [] = (Ok inf, tr')
    /\ ips_in_cloudflare_ranges inf
       = ipsBehindCFOf (resolved_ips inf)
           (cfRangesOf "Service Unavailable" "Service Unavailable").
Proof.
  refine (range_status_is_ignored rangesDown "example.com"
            {| status := 200; headers := ∅; text := Ok "";
               json_body := notJson |}
            {| status := 503; headers := ∅; text := Ok "Service Unavailable";
               json_body := notJson |}
            {| status := 503; headers := ∅; text := Ok "Service Unavailable";
               json_body := notJson |}
            "Service Unavailable" "Service Unavailable" _ _ _ _ _ _ _ _ _);
    try reflexivity.
  - eexists. split; [reflexivity |]. intros _. by eexists.
  - eexists. split; [reflexivity |]. intros _. by eexists.
Defined.

(** ** Records and names (lines 18, 22 and 61) *)

(** X19.  [resolved_ips] is the list of the data of the records of the A
    answer whose type is 1, each as often as it occurs and in the order of
    the answer (a CNAME record in the answer is dropped), while
    [nameservers] is the list of the names of all the records of the NS
    answer, whatever their type. *)
Theorem resolved_ips_are_type_1 w d inf tr' :
  analyse d w [] = (Ok inf, tr') ->
  resolved_ips inf
  = map data (List.filter (fun a => type a =? 1) (records (answerA w d)))
  /\ nameservers inf
     = map (fun a => toLowerCase (stripTrailingDot (data a)))
           (records (answerNS w d))
  /\ (forall ip,
        ip ∈ resolved_ips inf <->
        exists a, a ∈ records (answerA w d) /\ type a = 1 /\ data a = ip)
  /\ sublist (resolved_ips inf) (map data (records (answerA w d)))
  /\ length (nameservers inf) = length (records (answerNS w d)).
Proof.
  intros H. of_run H. cbn [resolved_ips nameservers inference].
  unfold aData. split; [done |]. split; [done |]. split; [| split].
  - intros ip. rewrite list_elem_of_fmap. split.
    + intros [a [-> Ha]]. apply filter_elem_of in Ha as [Ha Ht].
      apply Z.eqb_eq in Ht. by exists a.
    + intros [a (Ha & Ht & <-)]. exists a. split; [done |].
      apply filter_elem_of. split; [done |]. by apply Z.eqb_eq.
  - apply (fmap_sublist data), filter_sublist.
  - by rewrite length_map.
Qed.

Lemma resolved_ips_are_type_1_example :
  sublist (resolved_ips frontedInference)
          (map data [{| type := 5; data := "edge.example.net." |};
                     {| type := 1; data := "104.16.1.1" |};
                     {| type := 1; data := "93.184.216.34" |}]).
Proof.
  refine (proj1 (proj2 (proj2 (proj2 (resolved_ips_are_type_1 fronted
            "example.com" frontedInference
            (probeTrace fronted "example.com" ++ [callV4; callV6]) _))))).
  vm_compute. reflexivity.
Defined.

(** X20.  The suffix test of the nameserver check adds nothing: a name that
    ends with [ns.cloudflare.com] contains [cloudflare], so the check is
    true exactly when some name contains [cloudflare], wherever in the
    name that is. *)
Theorem suffix_test_is_subsumed (names : list string) :
  nsUsesCloudflareOf names
  = existsb (fun ns => includes ns "cloudflare") names
  /\ (nsUsesCloudflareOf names = true <->
      exists ns p q, ns ∈ names /\ ns = p +:+ "cloudflare" +:+ q).
Proof.
  assert (E : nsUsesCloudflareOf names
              = existsb (fun ns => includes ns "cloudflare") names).
  { unfold nsUsesCloudflareOf. induction names as [|ns l IH]; [done |].
    cbn [existsb]. rewrite IH. f_equal.
    destruct (endsWith ns "ns.cloudflare.com") eqn:Es; [| done].
    symmetry. apply endsWith_spec in Es as [p ->].
    apply includes_spec. exists (p +:+ "ns."), ".com".
    by rewrite !app_assoc_s. }
  split; [done |]. rewrite E, existsb_elem_of. split.
  - intros [ns [Hin Hs]]. apply includes_spec in Hs as [p [q ->]]. by eexists _, p, q.
  - intros (ns & p & q & Hin & ->). eexists. split; [done |].
    apply includes_spec. by exists p, q.
Qed.

(** ** The resolver URL (line 10) *)

Import Uri.

Lemma encodeChar_escaped c : allChars escaped (encodeChar c) = true.
Proof. by destruct c as [[] [] [] [] [] [] [] []]. Qed.

Lemma encodeURIComponent_escaped s :
  allChars escaped (encodeURIComponent s) = true.
Proof.
  induction s as [|c s IH]; [done |]. cbn [encodeURIComponent].
  by rewrite allChars_app, encodeChar_escaped, IH.
Qed.

Lemma includes_char_false P s c :
  allChars P s = true -> P c = false -> includes s (str1 c) = false.
Proof.
  intros Hs Hc. unfold str1. induction s as [|a s IH]; [done |].
  cbn [allChars] in Hs. apply andb_true_iff in Hs as [Ha Hs].
  cbn [includes startsWith]. rewrite andb_true_r, (IH Hs), orb_false_r.
  apply not_true_is_false. intros E. apply char_eqb_eq in E. congruence.
Qed.

(** X21.  The domain cannot alter the resolver URL around it: the name is
    put in the query percent-encoded, so what stands between [name=] and
    [&type=] has only unreserved characters and percent signs, and none of
    the characters [&], [=], [?], [#], [/] or a space, whatever the domain
    is. *)
Theorem doh_url_is_escaped name type :
  url (dohCall name type)
  = "https://cloudflare-dns.com/dns-query?name=" +:+ encodeURIComponent name
      +:+ "&type=" +:+ encodeURIComponent type +:+ "&ct=application/dns-json"
  /\ allChars escaped (encodeURIComponent name) = true
  /\ includes (encodeURIComponent name) "&" = false
  /\ includes (encodeURIComponent name) "=" = false
  /\ includes (encodeURIComponent name) "?" = false
  /\ includes (encodeURIComponent name) "#" = false
  /\ includes (encodeURIComponent name) "/" = false
  /\ includes (encodeURIComponent name) " " = false.
Proof.
  pose proof (encodeURIComponent_escaped name) as H.
  split; [done |]. split; [done |].
  repeat split; by apply (includes_char_false escaped).
Qed.

(** ** The headers that count (lines 30-34 and 64-67) *)

Lemma collect_lookup_eq (hs hs' : gmap string string) (k : string) :
  hs !! k = hs' !! k -> collect hs !! k = collect hs' !! k.
Proof. intros H. unfold collect. by rewrite !collect_fold, H. Qed.

(** X22.  Of a probe response only three headers count: two responses that
    agree on [server], [cf-ray] and [cf-cache-status] give the same hints,
    whatever their status and their other headers, [via] and
    [x-powered-by] included, which are captured and never read. *)
Theorem hints_use_three_headers (r r' : FetchResponse) :
  headers r !! "server" = headers r' !! "server" ->
  headers r !! "cf-ray" = headers r' !! "cf-ray" ->
  headers r !! "cf-cache-status" = headers r' !! "cf-cache-status" ->
  headerIndicationsOf (attempt (Ok r)) = headerIndicationsOf (attempt (Ok r')).
Proof.
  intros Hs Hr Hc. unfold headerIndicationsOf. simpl. f_equal.
  unfold indications.
  by rewrite (collect_lookup_eq _ _ _ Hs), (collect_lookup_eq _ _ _ Hr),
    (collect_lookup_eq _ _ _ Hc).
Qed.

Lemma hints_use_three_headers_example :
  headerIndicationsOf
    (attempt (Ok {| status := 403;
                    headers := <["via" := "1.1 varnish"]>
                                 (<["cf-ray" := "8a1b2c3d4e5f-AMS"]> ∅);
                    text := Ok ""; json_body := notJson |}))
  = headerIndicationsOf
      (attempt (Ok {| status := 200;
                      headers := <["cf-ray" := "8a1b2c3d4e5f-AMS"]> ∅;
                      text := Ok ""; json_body := notJson |})).
Proof.
  apply (hints_use_three_headers
           {| status := 403;
              headers := <["via" := "1.1 varnish"]>
                           (<["cf-ray" := "8a1b2c3d4e5f-AMS"]> ∅);
              text := Ok ""; json_body := notJson |}
           {| status := 200;
              headers := <["cf-ray" := "8a1b2c3d4e5f-AMS"]> ∅;
              text := Ok ""; json_body := notJson |});
    vm_compute; reflexivity.
Defined.
